(** * XI optimiser of [services/xi_service.py]

    A shallow embedding of the scoring engine, the eligibility test, the
    assignment optimiser and the squad comparator, with the properties the
    specification states about them.

    Conventions.
    - Numbers are rationals ([Q]), compared with [==]; a missing value
      (Python [None], pandas [NaN]) is the cell [NA], or [None] once a column
      has gone through [pd.to_numeric].
    - The libraries the module calls are taken as they are documented:
      [Series.mean] and [Series.std], which round as binary64 arithmetic
      does, [scipy.optimize.linear_sum_assignment] and the PuLP solver are
      variables of the sections that use them.  A binary64 reference for the
      first two is given for running the module on concrete pools. *)

From Stdlib Require Import List String Ascii Bool Arith Lia ZArith QArith Lqa.
From Stdlib Require Floats Uint63.
Import ListNotations.
Local Open Scope string_scope.
Local Open Scope list_scope.

(** ** Text *)

(** [str.upper()] on the ASCII range. *)
Definition upper_ascii (c : ascii) : ascii :=
  let n := nat_of_ascii c in
  if (97 <=? n)%nat && (n <=? 122)%nat then ascii_of_nat (n - 32) else c.

Fixpoint upper (s : string) : string :=
  match s with
  | EmptyString => EmptyString
  | String c s' => String (upper_ascii c) (upper s')
  end.

(** [p in s] on strings: [p] occurs in [s] as a contiguous run. *)
Fixpoint contains (p s : string) : bool :=
  prefix p s ||
  match s with
  | EmptyString => false
  | String _ s' => contains p s'
  end.

(** [key in tuple] / [key in list] on strings. *)
Definition mem (k : string) (l : list string) : bool :=
  existsb (String.eqb k) l.

(** ** Dictionaries with string keys, in insertion order *)

Fixpoint lookup {A} (k : string) (d : list (string * A)) : option A :=
  match d with
  | [] => None
  | (k', v) :: d' => if String.eqb k k' then Some v else lookup k d'
  end.

(** [d.get(k, dflt)] *)
Definition get {A} (d : list (string * A)) (k : string) (dflt : A) : A :=
  match lookup k d with Some v => v | None => dflt end.

(** ** Formations and eligibility *)

Definition FORMATIONS : list (string * list string) :=
  [ ("4-3-3", ["GK";"LB";"LCB";"RCB";"RB";"LCM";"CM";"RCM";"LW";"ST";"RW"]);
    ("4-2-3-1", ["GK";"LB";"LCB";"RCB";"RB";"LDM";"CDM";"RDM";"LAM";"CAM";"RAM";"ST"]);
    ("4-4-2", ["GK";"LB";"LCB";"RCB";"RB";"LM";"LCM";"RCM";"RM";"LS";"RS"]) ].

Definition ELIGIBLE_MAP : list (string * list string) :=
  [ ("GK", ["GK"]);
    ("LB", ["LB";"LWB";"FB";"WB";"LB/LWB"]);
    ("RB", ["RB";"RWB";"FB";"WB";"RB/RWB"]);
    ("LCB", ["CB";"LCB";"DEF"]);
    ("RCB", ["CB";"RCB";"DEF"]);
    ("CM", ["CM";"DM";"AM";"LCM";"RCM";"MID"]);
    ("LCM", ["CM";"LCM";"DM";"MID";"AM"]);
    ("RCM", ["CM";"RCM";"DM";"MID";"AM"]);
    ("LDM", ["DM";"CM";"MID"]);
    ("CDM", ["DM";"CM";"MID"]);
    ("RDM", ["DM";"CM";"MID"]);
    ("LM", ["LM";"LW";"MID"]);
    ("RM", ["RM";"RW";"MID"]);
    ("CAM", ["AM";"CM"]);
    ("LAM", ["AM";"LW";"LM"]);
    ("RAM", ["AM";"RW";"RM"]);
    ("LW", ["LW";"LM";"AM"]);
    ("RW", ["RW";"RM";"AM"]);
    ("ST", ["ST";"CF";"FW"]);
    ("LS", ["ST";"CF";"FW"]);
    ("RS", ["ST";"CF";"FW"]) ].

(** The tags a slot accepts: [ELIGIBLE_MAP.get(slot, [slot])]. *)
Definition accepted (slot : string) : list string :=
  get ELIGIBLE_MAP slot [slot].

(** [optimize_xi.eligible]; [row_pos] is the text [str(row_pos)]. *)
Definition eligible (slot row_pos : string) : bool :=
  let poss := accepted slot in
  let rp := upper row_pos in
  existsb (fun p => contains p rp) poss.

(** [p] is a substring of [s]. *)
Definition substring_of (p s : string) : Prop :=
  exists pre post, s = (pre ++ p ++ post)%string.

(** ** Exceptions *)

Inductive exn : Type :=
| KeyError (k : string)
| IndexError
| TypeError
| ValueError
| PulpSolverError
| ReferenceError.

Inductive result (A : Type) : Type :=
| Ok (a : A)
| Raise (e : exn).
Arguments Ok {A} a.
Arguments Raise {A} e.

Definition rbind {A B} (r : result A) (f : A -> result B) : result B :=
  match r with Ok a => f a | Raise e => Raise e end.

Declare Scope result_scope.
Delimit Scope result_scope with result.
Notation "x <- r ;; k" := (rbind r (fun x => k))
  (at level 61, r at next level, right associativity) : result_scope.

(** ** Tables *)

(** A cell of a table: a number, a text that is not a numeral, or a missing
    value. *)
Inductive cell : Type :=
| Num (q : Q)
| Str (s : string)
| NA.

Definition Series := list cell.

(** A [pd.DataFrame]: [index] rows labelled [0 .. index-1] and the columns in
    order, each holding one cell per row. *)
Record DataFrame : Type := mkDataFrame {
  index : nat;
  columns : list (string * Series)
}.

(** [df[c]] *)
Definition getitem (df : DataFrame) (c : string) : result Series :=
  match lookup c (columns df) with
  | Some s => Ok s
  | None => Raise (KeyError c)
  end.

Fixpoint assign (c : string) (s : Series) (cols : list (string * Series))
  : list (string * Series) :=
  match cols with
  | [] => [(c, s)]
  | (c', s') :: cols' =>
      if String.eqb c c' then (c, s) :: cols' else (c', s') :: assign c s cols'
  end.

(** [df[c] = s] on a table value: replaces the column or adds it last. *)
Definition setitem (df : DataFrame) (c : string) (s : Series) : DataFrame :=
  {| index := index df; columns := assign c s (columns df) |}.

(** [c in df.columns] *)
Definition has_column (df : DataFrame) (c : string) : bool :=
  match lookup c (columns df) with Some _ => true | None => false end.

(** [df.iloc[i].to_dict()] *)
Definition row_dict (df : DataFrame) (i : nat) : list (string * cell) :=
  map (fun '(c, s) => (c, nth i s NA)) (columns df).

(** [df.iloc[i]]: positions past the last row raise. *)
Definition iloc (df : DataFrame) (i : nat) : result (list (string * cell)) :=
  if (i <? index df)%nat then Ok (row_dict df i) else Raise IndexError.

(** [str(v)] of a cell; the digits of a number play no part in what follows
    and are not printed. *)
Definition str (c : cell) : string :=
  match c with
  | Str s => s
  | Num _ => "0.0"
  | NA => "nan"
  end.

(** ** Numeric series *)

(** A float or [NaN]. *)
Definition float := option Q.

(** [pd.to_numeric(s, errors="coerce")] *)
Definition to_numeric (s : Series) : list float :=
  map (fun c => match c with Num q => Some q | _ => None end) s.

Definition of_numeric (s : list float) : Series :=
  map (fun v => match v with Some q => Num q | None => NA end) s.

(** Arithmetic that propagates [NaN]. *)
Definition nan_op (f : Q -> Q -> Q) (a b : float) : float :=
  match a, b with
  | Some x, Some y => Some (f x y)
  | _, _ => None
  end.

Definition present (s : list float) : list Q :=
  flat_map (fun v => match v with Some q => [q] | None => [] end) s.

Definition Qsum (l : list Q) : Q := fold_right Qplus 0 l.

Definition Qofnat (n : nat) : Q := inject_Z (Z.of_nat n).

(** [s.fillna(v)] *)
Definition fillna (v : Q) (s : list float) : list Q :=
  map (fun x => match x with Some q => q | None => v end) s.

(** [w * s] *)
Definition scale (w : Q) (s : list Q) : list Q := map (Qmult w) s.

(** [a + b] on two series over the same index. *)
Definition add_series (a b : list Q) : list Q :=
  map (fun p => fst p + snd p) (combine a b).

Section Scoring.

(** [Series.mean] and [Series.std] are pandas' own.  They compute in binary64
    and return the rounded result, which need not be the exact mean or the
    exact standard deviation of the values: what they return for the values
    that are not missing is taken from the library.  What does not depend on
    the rounding is written out: the missing values are skipped, no value
    gives [NaN], and one value gives [NaN] for the sample standard deviation
    ([ddof=1]). *)
Variable mean_of : list Q -> Q.
Variable std_of : list Q -> Q.

(** [s.mean(skipna=True)] *)
Definition mean (s : list float) : float :=
  match present s with
  | [] => None
  | vals => Some (mean_of vals)
  end.

(** [s.std(skipna=True)] *)
Definition std (s : list float) : float :=
  match present s with
  | [] | [_] => None
  | vals => Some (std_of vals)
  end.

(** The test [sd is None or sd == 0 or math.isnan(sd)]. *)
Definition degenerate (sd : float) : bool :=
  match sd with
  | None => true
  | Some d => Qeq_bool d 0
  end.

Definition zscore (s : Series) : Series :=
  let s := to_numeric s in
  let mu := mean s in
  let sd := std s in
  if degenerate sd then
    of_numeric (map (fun x => nan_op Qmult x (Some 0)) s)
  else
    of_numeric (map (fun x => nan_op Qdiv (nan_op Qminus x mu) sd) s).

(** ** Tables as objects

    A table is an object of the store; a variable holds a reference to it.
    [df.copy()] makes a new object, [out[c] = s] changes the object [out]
    refers to. *)

Definition SE (S A : Type) : Type := S -> result A * S.

Definition ret {S A} (a : A) : SE S A := fun s => (Ok a, s).

Definition bind {S A B} (m : SE S A) (f : A -> SE S B) : SE S B :=
  fun s =>
    match m s with
    | (Ok a, s') => f a s'
    | (Raise e, s') => (Raise e, s')
    end.

Notation "x <~ m ;; k" := (bind m (fun x => k))
  (at level 61, m at next level, right associativity).

Fixpoint for_each {S A} (l : list A) (body : A -> SE S unit) : SE S unit :=
  match l with
  | [] => ret tt
  | a :: l' => _ <~ body a ;; for_each l' body
  end.

(** Statements on one table. *)
Definition T (A : Type) : Type := SE DataFrame A.

Definition col (c : string) : T Series := fun d => (getitem d c, d).

Definition set (c : string) (s : Series) : T unit :=
  fun d => (Ok tt, setitem d c s).

(** The store. *)
Definition heap : Type := list DataFrame.
Definition ref : Type := nat.
Definition M (A : Type) : Type := SE heap A.

Fixpoint replace (r : ref) (d : DataFrame) (h : heap) : heap :=
  match h, r with
  | [], _ => []
  | _ :: h', O => d :: h'
  | d0 :: h', S r' => d0 :: replace r' d h'
  end.

(** [df.copy()] *)
Definition copy (r : ref) : M ref :=
  fun h =>
    match nth_error h r with
    | Some d => (Ok (List.length h), h ++ [d])
    | None => (Raise ReferenceError, h)
    end.

(** Statements on the table [r] refers to. *)
Definition on {A} (r : ref) (t : T A) : M A :=
  fun h =>
    match nth_error h r with
    | Some d => let (res, d') := t d in (res, replace r d' h)
    | None => (Raise ReferenceError, h)
    end.

(** ** Scoring *)

Definition METRICS : list string := ["minutes"; "goals"; "assists"; "xG"].

(** [weights.get(m, default)] with the default the source writes for [m]. *)
Definition weight (weights : list (string * Q)) (m : string) : Q :=
  get weights m (if String.eqb m "goals" then 4#10 else 2#10).

(** The weighted sum of the four filled z-columns, as numbers. *)
Definition weighted (w : list (string * Q)) (z_minutes z_goals z_assists z_xG : Series)
  : list Q :=
  add_series
    (add_series
       (add_series
          (scale (weight w "minutes") (fillna 0 (to_numeric z_minutes)))
          (scale (weight w "goals") (fillna 0 (to_numeric z_goals))))
       (scale (weight w "assists") (fillna 0 (to_numeric z_assists))))
    (scale (weight w "xG") (fillna 0 (to_numeric z_xG))).

(** The same as a column. *)
Definition weighted_sum (weights : list (string * Q))
  (z_minutes z_goals z_assists z_xG : Series) : Series :=
  map Num (weighted weights z_minutes z_goals z_assists z_xG).

(** The statements of [score_players] on [out]. *)
Definition score_columns (weights : list (string * Q)) : T unit :=
  _ <~ for_each METRICS (fun m =>
         s <~ col m ;; set ("z_" ++ m)%string (zscore s)) ;;
  z_minutes <~ col "z_minutes" ;;
  z_goals <~ col "z_goals" ;;
  z_assists <~ col "z_assists" ;;
  z_xG <~ col "z_xG" ;;
  set "score" (weighted_sum weights z_minutes z_goals z_assists z_xG).

Definition score_players (df : ref) (weights : list (string * Q)) : M ref :=
  out <~ copy df ;;
  _ <~ on out (score_columns weights) ;;
  ret out.

Definition slot_weights (slot : string) : list (string * Q) :=
  let slot := upper slot in
  if mem slot ["ST";"LS";"RS";"CF";"LW";"RW";"LAM";"RAM"] then
    [("goals", 5#10); ("xG", 3#10); ("assists", 2#10); ("minutes", 0)]
  else if mem slot ["CAM";"CM";"LCM";"RCM";"CDM";"LDM";"RDM";"LM";"RM"] then
    [("assists", 4#10); ("minutes", 3#10); ("xG", 2#10); ("goals", 1#10)]
  else if mem slot ["LB";"RB";"LCB";"RCB"] then
    [("minutes", 6#10); ("assists", 2#10); ("xG", 1#10); ("goals", 1#10)]
  else if String.eqb slot "GK" then
    [("minutes", 1); ("goals", 0); ("assists", 0); ("xG", 0)]
  else
    [("minutes", 4#10); ("goals", 2#10); ("assists", 2#10); ("xG", 2#10)].

Definition score_for_slot (pool : ref) (slot : string) : M ref :=
  let w := slot_weights slot in
  out <~ score_players pool w ;;
  out <~ copy out ;;
  _ <~ on out (s <~ col "score" ;; set "score_slot" s) ;;
  ret out.

(** What the statements make of a table value. *)
Definition exec {A} (t : T A) (d : DataFrame) : result DataFrame :=
  match t d with
  | (Ok _, d') => Ok d'
  | (Raise e, _) => Raise e
  end.

(** The table [score_players] returns, as a function of the table passed. *)
Definition scored (d : DataFrame) (weights : list (string * Q)) : result DataFrame :=
  exec (score_columns weights) d.

(** The table [score_for_slot] returns, as a function of the table passed. *)
Definition slot_scored (d : DataFrame) (slot : string) : result DataFrame :=
  (d1 <- scored d (slot_weights slot) ;;
   exec (s <~ col "score" ;; set "score_slot" s) d1)%result.

(** The table after the four z-columns have been attached. *)
Definition with_z (d : DataFrame) (cmin cg ca cx : Series) : DataFrame :=
  setitem (setitem (setitem (setitem d
    "z_minutes" (zscore cmin))
    "z_goals" (zscore cg))
    "z_assists" (zscore ca))
    "z_xG" (zscore cx).

End Scoring.

(** ** The integer program *)

(** The variable [x[(i, j)]]: row [i] of the pool plays slot [j]. *)
Definition var : Type := (nat * nat)%type.

Inductive sense : Type := LE | EQ.

(** A linear constraint [sum (coefficient * variable)  rel  rhs]. *)
Record LpConstraint : Type := mkConstraint {
  terms : list (Q * var);
  rel : sense;
  rhs : Q
}.

(** The problem handed to the solver: binary variables, an objective to
    maximise, constraints. *)
Record LpProblem : Type := mkProblem {
  variables : list var;
  objective : list (Q * var);
  constraints : list LpConstraint
}.

Inductive LpStatus : Type :=
| Optimal | NotSolved | Infeasible | Unbounded | Undefined.

(** What [prob.solve] leaves behind: its status and [var.value()] for every
    variable. *)
Record LpSolution : Type := mkSolution {
  status : LpStatus;
  value : var -> option Q
}.

Definition dict : Type := list (string * cell).

(** [pool.loc[i, c]] and [row[c]] for a row [i] of the index. *)
Definition loc (pool : DataFrame) (i : nat) (c : string) : result cell :=
  (s <- getitem pool c ;; Ok (nth i s NA))%result.

(** A cell as a coefficient: [None] and texts do not multiply. *)
Definition coefficient (c : cell) : result Q :=
  match c with
  | Num q => Ok q
  | _ => Raise TypeError
  end.

(** [float(v)] *)
Definition float_of (c : cell) : result Q :=
  match c with
  | Num q => Ok q
  | _ => Raise ValueError
  end.

(** [slots[j]] *)
Definition slot_at (slots : list string) (j : nat) : result string :=
  match nth_error slots j with
  | Some s => Ok s
  | None => Raise IndexError
  end.

(** The inner loop of the variable declarations: the slots row [i] is eligible
    for, from slot number [j] on. *)
Fixpoint eligible_vars (pool : DataFrame) (i : nat) (slots : list string) (j : nat)
  : result (list var) :=
  match slots with
  | [] => Ok []
  | slot :: rest =>
      (p <- loc pool i "pos" ;;
       tl <- eligible_vars pool i rest (S j) ;;
       Ok (if eligible slot (str p) then (i, j) :: tl else tl))%result
  end.

(** The keys of [x], in insertion order. *)
Fixpoint lp_variables (pool : DataFrame) (slots : list string) (rows : list nat)
  : result (list var) :=
  match rows with
  | [] => Ok []
  | i :: rows' =>
      (a <- eligible_vars pool i slots 0 ;;
       b <- lp_variables pool slots rows' ;;
       Ok (a ++ b))%result
  end.

(** [lpSum(pool.loc[i,"score"] * x[(i,j)] for (i,j) in x)] *)
Fixpoint lp_objective (pool : DataFrame) (x : list var) : result (list (Q * var)) :=
  match x with
  | [] => Ok []
  | (i, j) :: x' =>
      (c <- loc pool i "score" ;;
       q <- coefficient c ;;
       tl <- lp_objective pool x' ;;
       Ok ((q, (i, j)) :: tl))%result
  end.

(** [lpSum(x[v] for v in x if keep v)] *)
Definition lp_sum (keep : var -> bool) (x : list var) : list (Q * var) :=
  map (fun v => (1, v)) (filter keep x).

(** Every slot exactly one player. *)
Definition slot_constraints (slots : list string) (x : list var) : list LpConstraint :=
  map (fun j => mkConstraint (lp_sum (fun v => (snd v =? j)%nat) x) EQ 1)
      (seq 0 (List.length slots)).

(** Every player at most one slot. *)
Definition player_constraints (pool : DataFrame) (x : list var) : list LpConstraint :=
  map (fun i => mkConstraint (lp_sum (fun v => (fst v =? i)%nat) x) LE 1)
      (seq 0 (index pool)).

(** The left-hand side of the budget constraint.  For every row [i] the value
    of the row multiplies [lpSum(x[(i,j)] for (i,j) in x if i==i)]: the
    generator rebinds [i], its filter holds for every key, and the sum runs
    over all of [x]. *)
Fixpoint budget_terms (pool : DataFrame) (x : list var) (rows : list nat)
  : result (list (Q * var)) :=
  match rows with
  | [] => Ok []
  | i :: rows' =>
      (c <- loc pool i "market_value_mil" ;;
       q <- coefficient c ;;
       tl <- budget_terms pool x rows' ;;
       Ok (map (fun t => (q * fst t, snd t)) (lp_sum (fun _ => true) x) ++ tl))%result
  end.

(** [s.notna().any()] *)
Definition any_notna (s : Series) : bool :=
  existsb (fun c => match c with NA => false | _ => true end) s.

(** The budget constraint, posted when the pool has a market value. *)
Definition budget_constraint (pool : DataFrame) (x : list var) (budget_mil : Q)
  : result (list LpConstraint) :=
  match lookup "market_value_mil" (columns pool) with
  | Some s =>
      if any_notna s then
        (ts <- budget_terms pool x (seq 0 (index pool)) ;;
         Ok [mkConstraint ts LE budget_mil])%result
      else Ok []
  | None => Ok []
  end.

(** The problem [prob] as it stands when [prob.solve] is called. *)
Definition lp_problem (slots : list string) (pool : DataFrame) (budget_mil : Q)
  : result LpProblem :=
  (x <- lp_variables pool slots (seq 0 (index pool)) ;;
   obj <- lp_objective pool x ;;
   bc <- budget_constraint pool x budget_mil ;;
   Ok (mkProblem x obj (slot_constraints slots x ++ player_constraints pool x ++ bc)))%result.

(** [var.value() == 1] *)
Definition is_one (v : option Q) : bool :=
  match v with
  | Some q => Qeq_bool q 1
  | None => false
  end.

(** The loop that reads the solution. *)
Fixpoint selection (slots : list string) (pool : DataFrame) (x : list var)
  (sol : LpSolution) : result (list (string * dict)) :=
  match x with
  | [] => Ok []
  | (i, j) :: x' =>
      if is_one (value sol (i, j)) then
        (r <- iloc pool i ;;
         slot <- slot_at slots j ;;
         tl <- selection slots pool x' sol ;;
         Ok ((slot, r) :: tl))%result
      else selection slots pool x' sol
  end.

(** ** The cost matrix *)

Definition SENTINEL : Q := 1000000.

Definition matrix : Type := list (list Q).

(** [np.full((n, m), 1e6)] *)
Definition full (n m : nat) (v : Q) : matrix := repeat (repeat v m) n.

(** [cost[i, j]] *)
Definition cost_at (cost : matrix) (i j : nat) : result Q :=
  match nth_error cost i with
  | Some row =>
      match nth_error row j with
      | Some q => Ok q
      | None => Raise IndexError
      end
  | None => Raise IndexError
  end.

Fixpoint set_nth {A} (k : nat) (v : A) (l : list A) : list A :=
  match l, k with
  | [], _ => []
  | _ :: l', O => v :: l'
  | a :: l', S k' => a :: set_nth k' v l'
  end.

(** [cost[i, j] = v] *)
Definition set_cost (i j : nat) (v : Q) (cost : matrix) : matrix :=
  match nth_error cost i with
  | Some row => set_nth i (set_nth j v row) cost
  | None => cost
  end.

(** [a < b] on numbers. *)
Definition Qlt_bool (a b : Q) : bool := negb (Qle_bool b a).

(** ** The optimiser *)

Section Optimiser.

(** [Series.mean] and [Series.std], which [score_for_slot] calls. *)
Variable mean_of : list Q -> Q.
Variable std_of : list Q -> Q.

(** [scipy.optimize.linear_sum_assignment]: the row indices and the column
    indices of a minimum-cost assignment. *)
Variable linear_sum_assignment : matrix -> list nat * list nat.

(** [prob.solve(pulp.PULP_CBC_CMD(msg=False))]: [None] when the call raises,
    otherwise the status and the values it leaves in the variables. *)
Variable solve : LpProblem -> option LpSolution.

(** The integer-programming branch, up to its [return sel]. *)
Definition ilp (slots : list string) (pool : DataFrame) (budget_mil : Q)
  : result (list (string * dict)) :=
  (prob <- lp_problem slots pool budget_mil ;;
   match solve prob with
   | Some sol => selection slots pool (variables prob) sol
   | None => Raise PulpSolverError
   end)%result.

(** The rows of [slot_scored] written into column [j] of the cost matrix. *)
Fixpoint fill_rows (sc : DataFrame) (slot : string) (j : nat) (rows : list nat)
  (cost : matrix) : result matrix :=
  match rows with
  | [] => Ok cost
  | i :: rows' =>
      (p <- loc sc i "pos" ;;
       if eligible slot (str p) then
         (v <- float_of (get (row_dict sc i) "score_slot"
                            (get (row_dict sc i) "score" (Num 0))) ;;
          fill_rows sc slot j rows' (set_cost i j (- v) cost))
       else fill_rows sc slot j rows' cost)%result
  end.

(** The loop over the slots, from slot number [j] on. *)
Fixpoint fill_cost (pool : DataFrame) (slots : list string) (j : nat)
  (cost : matrix) : result matrix :=
  match slots with
  | [] => Ok cost
  | slot :: rest =>
      (sc <- slot_scored mean_of std_of pool slot ;;
       cost' <- fill_rows sc slot j (seq 0 (index sc)) cost ;;
       fill_cost pool rest (S j) cost')%result
  end.

(** The loop over [zip(row_ind, col_ind)], with [chosen] and [used_slots]. *)
Fixpoint choose (cost : matrix) (slots : list string) (pool : DataFrame)
  (pairs : list (nat * nat)) (chosen : list (string * dict))
  (used_slots : list string) : result (list (string * dict)) :=
  match pairs with
  | [] => Ok chosen
  | (i, j) :: rest =>
      (c <- cost_at cost i j ;;
       st <- (if Qlt_bool c SENTINEL then
                (slot <- slot_at slots j ;;
                 if negb (mem slot used_slots) then
                   (r <- iloc pool i ;;
                    Ok (chosen ++ [(slot, r)], slot :: used_slots))
                 else Ok (chosen, used_slots))
              else Ok (chosen, used_slots)) ;;
       if (List.length (snd st) =? List.length slots)%nat then Ok (fst st)
       else choose cost slots pool rest (fst st) (snd st))%result
  end.

(** The unconstrained branch. *)
Definition hungarian (slots : list string) (pool : DataFrame)
  : result (list (string * dict)) :=
  let n := index pool in
  let m := List.length slots in
  (cost <- fill_cost pool slots 0 (full n m SENTINEL) ;;
   let (row_ind, col_ind) := linear_sum_assignment cost in
   choose cost slots pool (combine row_ind col_ind) [] [])%result.

(** [optimize_xi] works on [pool.copy().reset_index(drop=True)], a table of
    its own with the rows numbered from 0, and [score_for_slot] leaves it as
    it is: the optimiser is written over the table itself. *)
Definition optimize_xi (formation : string) (pool : DataFrame)
  (budget_mil : option Q) : result (list (string * dict)) :=
  match lookup formation FORMATIONS with
  | None => Raise (KeyError formation)
  | Some slots =>
      match budget_mil with
      | Some b =>
          match ilp slots pool b with
          | Ok sel => Ok sel
          | Raise _ => hungarian slots pool
          end
      | None => hungarian slots pool
      end
  end.

End Optimiser.

(** ** A reference assignment solver

    An exact solver by search, for running the optimiser on small pools: among
    the assignments of [min n m] pairs it returns the first of least cost. *)

Fixpoint matchings (rows cols : list nat) : list (list (nat * nat)) :=
  match rows with
  | [] => [[]]
  | i :: rows' =>
      flat_map (fun j => map (cons (i, j))
                             (matchings rows' (List.remove Nat.eq_dec j cols)))
               cols
      ++ matchings rows' cols
  end.

Definition total_cost (cost : matrix) (pairs : list (nat * nat)) : Q :=
  Qsum (map (fun p => nth (snd p) (nth (fst p) cost []) 0) pairs).

Fixpoint least (cost : matrix) (best : list (nat * nat))
  (cands : list (list (nat * nat))) : list (nat * nat) :=
  match cands with
  | [] => best
  | c :: cands' =>
      if Qlt_bool (total_cost cost c) (total_cost cost best)
      then least cost c cands' else least cost best cands'
  end.

Definition assignment_by_search (cost : matrix) : list nat * list nat :=
  let n := List.length cost in
  let m := List.length (nth 0 cost []) in
  let full_size := filter (fun c => (List.length c =? Nat.min n m)%nat)
                          (matchings (seq 0 n) (seq 0 m)) in
  match full_size with
  | [] => ([], [])
  | c :: cands => let best := least cost c cands in (map fst best, map snd best)
  end.

(** ** Squads and their comparison *)

Record Slot : Type := mkSlot {
  pos : string;
  player : option dict
}.

Record Squad : Type := mkSquad {
  formation : string;
  slots : list (string * Slot)
}.

(** [Squad(formation)]: one empty slot per position of the formation. *)
Definition new_squad (formation : string) : result Squad :=
  match lookup formation FORMATIONS with
  | Some ps => Ok (mkSquad formation (map (fun p => (p, mkSlot p None)) ps))
  | None => Raise (KeyError formation)
  end.

Definition SQUAD_COLUMNS : list (string * string) :=
  [ ("Nombre", "name"); ("Club", "team"); ("Edad", "age"); ("Liga", "league");
    ("Temporada", "season"); ("Valor M€", "market_value_mil");
    ("Min", "minutes"); ("Goles", "goals"); ("Asist", "assists"); ("xG", "xG") ].

(** [pd.DataFrame(rows)] for rows with the keys of [to_dataframe]; no rows
    give a table with no columns. *)
Definition to_dataframe (sq : Squad) : DataFrame :=
  match slots sq with
  | [] => mkDataFrame 0 []
  | ss =>
      mkDataFrame (List.length ss)
        (("Pos", map (fun ps => Str (fst ps)) ss) ::
         map (fun ck =>
                (fst ck,
                 map (fun ps => match player (snd ps) with
                                | Some p => get p (snd ck) NA
                                | None => NA
                                end) ss))
             SQUAD_COLUMNS)
  end.

Section Comparator.

(** [Series.mean], taken for the mean age. *)
Variable mean_of : list Q -> Q.

(** [to_numeric(df[c]).fillna(0).sum()] *)
Definition total (df : DataFrame) (c : string) : result float :=
  (s <- getitem df c ;; Ok (Some (Qsum (fillna 0 (to_numeric s)))))%result.

(** [compare_squads.agg] *)
Definition agg (df : DataFrame) : result (list (string * float)) :=
  (v <- total df "Valor M€" ;;
   e <- (s <- getitem df "Edad" ;; Ok (mean mean_of (to_numeric s))) ;;
   mi <- total df "Min" ;;
   g <- total df "Goles" ;;
   a <- total df "Asist" ;;
   x <- total df "xG" ;;
   Ok [ ("Valor total (M€)", v); ("Edad media", e); ("Min totales", mi);
        ("Goles totales", g); ("Asist totales", a); ("xG total", x) ])%result.

(** A row of the comparison: the metric, Squad A, Squad B, B - A. *)
Record Delta : Type := mkDelta {
  metric : string;
  squad_a : float;
  squad_b : float;
  delta : float
}.

Definition compare_squads (a b : Squad) : result (list Delta) :=
  let da := to_dataframe a in
  let db := to_dataframe b in
  (A <- agg da ;;
   B <- agg db ;;
   Ok (map (fun ab => mkDelta (fst (fst ab)) (snd (fst ab)) (snd (snd ab))
                              (nan_op Qminus (snd (snd ab)) (snd (fst ab))))
           (combine A B)))%result.

End Comparator.

(** ** A reference for [Series.mean] and [Series.std]

    What pandas computes ([pandas.core.nanops]), in binary64, every operation
    rounding to the nearest double: the mean is the sum of the values divided
    by their number; the standard deviation is the square root of the sum of
    the squared deviations from that mean, divided by the number of values
    less one.  The sums are taken from left to right, as numpy takes them for
    fewer than eight values. *)

(** The double nearest to an integer (below 2^63 in size). *)
Definition Z2F (z : Z) : PrimFloat.float :=
  match z with
  | Z0 => PrimFloat.zero
  | Zpos _ => PrimFloat.of_uint63 (Uint63.of_Z z)
  | Zneg p => PrimFloat.opp (PrimFloat.of_uint63 (Uint63.of_Z (Zpos p)))
  end.

(** The double a number of a table stands for: the nearest one. *)
Definition Q2F (q : Q) : PrimFloat.float :=
  PrimFloat.div (Z2F (Qnum q)) (Z2F (Zpos (Qden q))).

(** The number a finite double is. *)
Definition F2Q (f : PrimFloat.float) : Q :=
  match FloatOps.Prim2SF f with
  | SpecFloat.S754_finite s m e =>
      let v := if (0 <=? e)%Z then inject_Z (Zpos m * 2 ^ e)
               else Zpos m # (2 ^ Z.to_pos (- e)) in
      if s then - v else v
  | _ => 0
  end.

(** The double nearest to a number, as a number. *)
Definition binary64 (q : Q) : Q := F2Q (Q2F q).

Definition fsum (l : list PrimFloat.float) : PrimFloat.float :=
  fold_left PrimFloat.add l PrimFloat.zero.

Definition fmean (l : list PrimFloat.float) : PrimFloat.float :=
  PrimFloat.div (fsum l) (Z2F (Z.of_nat (List.length l))).

(** [nanops.nanmean] on values none of which is missing. *)
Definition nanmean (vals : list Q) : Q := F2Q (fmean (map Q2F vals)).

(** [nanops.nanstd] with [ddof=1] on values none of which is missing. *)
Definition nanstd (vals : list Q) : Q :=
  let l := map Q2F vals in
  let avg := fmean l in
  let sqr := map (fun x => let d := PrimFloat.sub avg x in PrimFloat.mul d d) l in
  F2Q (PrimFloat.sqrt
         (PrimFloat.div (fsum sqr) (Z2F (Z.of_nat (List.length l) - 1)))).

(** ** Sample data *)

Definition player_row (name pos : string) (minutes goals assists xG : Q) : list cell :=
  [Str name; Str pos; Num minutes; Num goals; Num assists; Num xG].

(** A pool with the columns [name, pos, minutes, goals, assists, xG], one
    list of cells per row. *)
Definition pool_of (rows : list (list cell)) : DataFrame :=
  mkDataFrame (List.length rows)
    (map (fun kc => (snd kc, map (fun r => nth (fst kc) r NA) rows))
         (combine (seq 0 6) ["name"; "pos"; "minutes"; "goals"; "assists"; "xG"])).

(** ** Well-formed tables and what a metric adds to a score *)

(** Every column holds one cell per row. *)
Definition well_formed (d : DataFrame) : Prop :=
  forall c s, lookup c (columns d) = Some s -> List.length s = index d.

(** The pool has the four metric columns. *)
Definition has_metrics (d : DataFrame) : Prop :=
  forall m, In m METRICS -> has_column d m = true.

(** The cells of a column, none when the table lacks it. *)
Definition column (d : DataFrame) (c : string) : Series :=
  match lookup c (columns d) with Some s => s | None => [] end.

(** The term of metric [m] in the score of row [i] of a scored table:
    [weights.get(m) * out["z_m"].fillna(0)] at [i]. *)
Definition contribution (weights : list (string * Q)) (out : DataFrame)
  (m : string) (i : nat) : Q :=
  weight weights m * nth i (fillna 0 (to_numeric (column out ("z_" ++ m)%string))) 0.

(** Every number of the list is zero. *)
Definition all_zero (l : list Q) : Prop := Forall (fun q => q == 0) l.

(** ** Checks and samples used below *)

(** [well_formed], as a test. *)
Definition well_formedb (d : DataFrame) : bool :=
  forallb (fun cs => (List.length (snd cs) =? index d)%nat) (columns d).

(** What [Squad()] builds: the formation 4-3-3 with every slot empty. *)
Definition empty_433 : Squad :=
  mkSquad "4-3-3"
    (map (fun p => (p, mkSlot p None))
         ["GK";"LB";"LCB";"RCB";"RB";"LCM";"CM";"RCM";"LW";"ST";"RW"]).

(** The ages of a squad, slot by slot. *)
Definition ages (sq : Squad) : list float :=
  to_numeric (column (to_dataframe sq) "Edad").

(** The rows of a comparison other than the mean age. *)
Definition is_sum (r : Delta) : bool := negb (String.eqb (metric r) "Edad media").

(** Two strikers with the same minutes and assists. *)
Definition two_strikers : DataFrame :=
  pool_of [player_row "A" "ST" 900 10 1 8; player_row "B" "ST" 900 2 1 1].

Definition zero_weights : list (string * Q) :=
  [("minutes", 0); ("goals", 0); ("assists", 0); ("xG", 0)].

(** ** Conditions on a call of the optimiser *)

(** No row of the pool is eligible for any of the slots. *)
Definition no_candidates (slots : list string) (pool : DataFrame) : Prop :=
  forall i slot, (i < index pool)%nat -> In slot slots ->
    exists p, loc pool i "pos" = Ok p /\ eligible slot (str p) = false.

(** The pairs an assignment solver returns lie inside an [n] by [m] matrix. *)
Definition in_range (n m : nat) (r : list nat * list nat) : Prop :=
  Forall (fun p => (fst p < n)%nat /\ (snd p < m)%nat) (combine (fst r) (snd r)).

(** A pool whose only player is eligible for no slot. *)
Definition one_sweeper : DataFrame :=
  pool_of [player_row "X" "SW" 900 0 0 0].

(** A solver that is not there: the call raises. *)
Definition no_solver : LpProblem -> option LpSolution := fun _ => None.

(** Every entry of the cost matrix below the sentinel belongs to an eligible
    pair. *)
Definition cost_sound (slots : list string) (pool : DataFrame) (cost : matrix) : Prop :=
  forall i j q, cost_at cost i j = Ok q -> Qlt_bool q SENTINEL = true ->
    exists slot p, nth_error slots j = Some slot /\
                   loc pool i "pos" = Ok p /\ eligible slot (str p) = true.

(** ** What a solution of the integer program satisfies *)

(** The value of a variable, 0 when the solver left none. *)
Definition value_of (sol : LpSolution) (v : var) : Q :=
  match value sol v with Some q => q | None => 0 end.

(** The left-hand side of a constraint under a solution. *)
Definition lhs (sol : LpSolution) (ts : list (Q * var)) : Q :=
  Qsum (map (fun t => fst t * value_of sol (snd t)) ts).

Definition holds (sol : LpSolution) (c : LpConstraint) : Prop :=
  match rel c with
  | LE => lhs sol (terms c) <= rhs c
  | EQ => lhs sol (terms c) == rhs c
  end.

(** The lower bound of the variables. *)
Definition nonneg (sol : LpSolution) (x : list var) : Prop :=
  forall v, In v x -> 0 <= value_of sol v.

(** The market value of a player of the assignment, 0 when unknown. *)
Definition market_value (player : dict) : Q :=
  match get player "market_value_mil" NA with Num q => q | _ => 0 end.

(** The market value of an assignment. *)
Definition total_value (sel : list (string * dict)) : Q :=
  Qsum (map (fun sp => market_value (snd sp)) sel).

(** The test of the loop that reads the solution. *)
Definition selected (sol : LpSolution) (v : var) : bool := is_one (value sol v).

(** One striker with a market value of 50 and no [score] column. *)
Definition priced_striker : DataFrame :=
  setitem (pool_of [player_row "A" "ST" 900 10 1 8]) "market_value_mil" [Num 50].

(** The same pool after [score_players], with a [score] column. *)
Definition priced_striker_scored : DataFrame :=
  setitem priced_striker "score" [Num 0].

(** A solver that reports an optimum and sets every variable to 1. *)
Definition all_ones : LpProblem -> option LpSolution :=
  fun _ => Some (mkSolution Optimal (fun _ => Some 1)).

(** A solver that reports infeasibility and leaves every variable at 0. *)
Definition reports_infeasible : LpProblem -> option LpSolution :=
  fun _ => Some (mkSolution Infeasible (fun _ => Some 0)).

(** The slots of the formation 4-3-3. *)
Definition SLOTS_433 : list string :=
  ["GK";"LB";"LCB";"RCB";"RB";"LCM";"CM";"RCM";"LW";"ST";"RW"].

(** ** The methods of [Squad] *)

(** [Squad.remove]: the slot [p], if the squad has it, loses its player. *)
Definition remove (sq : Squad) (p : string) : Squad :=
  mkSquad (formation sq)
    (map (fun ks => if String.eqb (fst ks) p
                    then (fst ks, mkSlot (pos (snd ks)) None)
                    else ks)
         (slots sq)).

(** [Squad.set_formation]: the name is assigned first, then the slots; an
    unknown formation raises on the second statement, the name already
    changed. *)
Definition set_formation (sq : Squad) (f : string) : result unit * Squad :=
  match lookup f FORMATIONS with
  | Some ps => (Ok tt, mkSquad f (map (fun p => (p, mkSlot p None)) ps))
  | None => (Raise (KeyError f), mkSquad f (slots sq))
  end.

(** [Squad.total_value] *)
Definition squad_total_value (sq : Squad) : Q :=
  let df := to_dataframe sq in
  if negb (has_column df "Valor M€") || (index df =? 0)%nat then 0
  else Qsum (fillna 0 (to_numeric (column df "Valor M€"))).

(** The dictionary [to_dict] builds and [from_dict] reads; a key may be
    absent, a slot may hold [None]. *)
Record SquadDict : Type := mkSquadDict {
  d_formation : option string;
  d_slots : option (list (string * option dict))
}.

Definition to_dict (sq : Squad) : SquadDict :=
  mkSquadDict (Some (formation sq))
    (Some (map (fun ks => (fst ks, player (snd ks))) (slots sq))).

(** [d.get("slots", {}).get(pos)] *)
Definition saved_player (d : SquadDict) (p : string) : option dict :=
  match lookup p (match d_slots d with Some ss => ss | None => [] end) with
  | Some pl => pl
  | None => None
  end.

(** [d[k] = v] on a dictionary: the key keeps its place, a new key goes
    last. *)
Fixpoint set_key {A} (k : string) (v : A) (d : list (string * A))
  : list (string * A) :=
  match d with
  | [] => [(k, v)]
  | (k', v') :: d' =>
      if String.eqb k k' then (k, v) :: d' else (k', v') :: set_key k v d'
  end.

(** [Squad.from_dict] *)
Definition from_dict (d : SquadDict) : result Squad :=
  let f := match d_formation d with Some f => f | None => "4-3-3" end in
  (sq <- new_squad f ;;
   match lookup (formation sq) FORMATIONS with
   | Some ps =>
       Ok (mkSquad (formation sq)
             (fold_left (fun ss p => set_key p (mkSlot p (saved_player d p)) ss)
                        ps (slots sq)))
   | None => Raise (KeyError (formation sq))
   end)%result.

(** The slots of a squad are those of its formation, in order, each under its
    own name. *)
Definition squad_ok (sq : Squad) : Prop :=
  exists ps, lookup (formation sq) FORMATIONS = Some ps /\
             map fst (slots sq) = ps /\
             forall ks, In ks (slots sq) -> pos (snd ks) = fst ks.

(** The market value a slot adds to the total. *)
Definition slot_value (s : Slot) : Q :=
  match player s with Some p => market_value p | None => 0 end.

(** The negation of a float, [NaN] staying [NaN]. *)
Definition nan_opp (a : float) : float :=
  match a with Some q => Some (- q) | None => None end.

(** Equality of floats up to [==], [NaN] matching [NaN]. *)
Definition float_eq (a b : float) : Prop :=
  match a, b with
  | Some x, Some y => x == y
  | None, None => True
  | _, _ => False
  end.

(** A pool without the [goals] column. *)
Definition no_goals : DataFrame :=
  mkDataFrame 1 [("name", [Str "A"]); ("pos", [Str "ST"]); ("minutes", [Num 900])].

(** ** Adding a player to a squad *)

(** [models.players.Player]: the name, and ten fields that may be [None]. *)
Record Player : Type := mkPlayer {
  p_name : string;
  p_age : cell;
  p_position : cell;
  p_team : cell;
  p_league : cell;
  p_market_value_mil : cell;
  p_season : cell;
  p_goals : cell;
  p_assists : cell;
  p_xG : cell;
  p_minutes : cell
}.

(** The dictionary [Squad.add] stores in the slot. *)
Definition player_dict (p : Player) : dict :=
  [ ("name", Str (p_name p));
    ("team", p_team p); ("league", p_league p); ("season", p_season p);
    ("age", p_age p); ("position", p_position p);
    ("market_value_mil", p_market_value_mil p);
    ("goals", p_goals p); ("assists", p_assists p); ("xG", p_xG p);
    ("minutes", p_minutes p) ].

Section AddPlayer.

(** [services.player_service.fetch_player]: the player, [None] when the
    statistics have no such name, or an exception of the scraper. *)
Variable fetch_player : string -> result (option Player).

(** [Squad.add]: the result of the call and the squad it leaves. *)
Definition add (sq : Squad) (slot player_name : string) : result unit * Squad :=
  match fetch_player player_name with
  | Raise e => (Raise e, sq)
  | Ok None => (Ok tt, sq)
  | Ok (Some p) =>
      match lookup slot (slots sq) with
      | None => (Raise (KeyError slot), sq)
      | Some _ =>
          (Ok tt,
           mkSquad (formation sq)
             (map (fun ks => if String.eqb (fst ks) slot
                             then (fst ks, mkSlot (pos (snd ks)) (Some (player_dict p)))
                             else ks)
                  (slots sq)))
      end
  end.

End AddPlayer.

(** A striker as [fetch_player] returns one. *)
Definition striker : Player :=
  mkPlayer "A" (Num 24) (Str "ST") (Str "T") (Str "L") (Num 50) (Str "2024-2025")
           (Num 10) (Num 1) (Num 8) (Num 900).

(** A scraper that knows the striker only. *)
Definition knows_striker (name : string) : result (option Player) :=
  if String.eqb name "A" then Ok (Some striker) else Ok None.

(** The empty 4-3-3 after the striker has been added at ST. *)
Definition squad_with_striker : Squad :=
  snd (add knows_striker empty_433 "ST" "A").

(** ** Market values *)

(** [a == b] on two cells; a missing value equals nothing. *)
Definition cell_eqb (a b : cell) : bool :=
  match a, b with
  | Str s, Str t => String.eqb s t
  | Num p, Num q => Qeq_bool p q
  | _, _ => false
  end.

(** [s.dropna()] *)
Definition dropna (s : Series) : Series :=
  filter (fun c => match c with NA => false | _ => true end) s.

(** [s.unique()]: the values in the order they first appear. *)
Definition unique (s : Series) : Series :=
  fold_left (fun seen c => if existsb (cell_eqb c) seen then seen else seen ++ [c])
            s [].

Notation "x <~ m ;; k" := (bind m (fun x => k))
  (at level 61, m at next level, right associativity).

(** [df[c] = v] for a scalar [v]: the value in every row. *)
Definition broadcast (c : string) (v : cell) : T unit :=
  fun d => (Ok tt, setitem d c (repeat v (index d))).

(** [df.loc[df["name"] == n, "market_value_mil"] = mv] *)
Definition mark (n mv : cell) : T unit :=
  name <~ col "name" ;;
  old <~ col "market_value_mil" ;;
  set "market_value_mil"
      (map (fun p => if cell_eqb (fst p) n then mv else snd p) (combine name old)).

Section MarketValues.

(** [adaptors.transfermarkt.get_market_value]: the value in millions, [None]
    when the site shows none, or an exception of the scraper. *)
Variable get_market_value : cell -> result (option Q).

(** The value written for a name: [None] when the lookup raises. *)
Definition looked_up (n : cell) : cell :=
  match get_market_value n with
  | Ok (Some q) => Num q
  | _ => NA
  end.

(** The statements of [add_market_values] on the copy. *)
Definition market_value_columns (max_lookup : nat) : T unit :=
  _ <~ broadcast "market_value_mil" NA ;;
  name <~ col "name" ;;
  let names := firstn max_lookup (unique (dropna name)) in
  for_each names (fun n => let mv := looked_up n in mark n mv).

Definition add_market_values (df : ref) (max_lookup : nat) : M ref :=
  df <~ copy df ;;
  _ <~ on df (market_value_columns max_lookup) ;;
  ret df.

(** The value of the row named [nm] once the names of [looked] have been
    looked up. *)
Definition value_for (looked : list cell) (nm : cell) : cell :=
  if existsb (cell_eqb nm) looked then looked_up nm else NA.

End MarketValues.

(** The names are texts, or missing. *)
Definition text_names (s : Series) : Prop :=
  Forall (fun c => match c with Num _ => False | _ => True end) s.

(** A price list that knows the striker "A" only and fails on "C". *)
Definition price_list (n : cell) : result (option Q) :=
  match n with
  | Str "A" => Ok (Some 50)
  | Str "C" => Raise ValueError
  | _ => Ok None
  end.

(** Three rows, two of them of the same player. *)
Definition three_rows : DataFrame :=
  pool_of [player_row "A" "ST" 900 10 1 8; player_row "B" "GK" 900 0 0 0;
           player_row "A" "ST" 300 2 0 1].

(** Eleven players, one for each slot of the 4-3-3, in the order of the
    slots, with a [score] column. *)
Definition eleven : DataFrame :=
  setitem
    (pool_of [player_row "P0" "GK" 900 0 0 0; player_row "P1" "LB" 900 0 1 0;
              player_row "P2" "CB" 900 1 0 0; player_row "P3" "CB" 900 0 0 0;
              player_row "P4" "RB" 900 0 2 0; player_row "P5" "CM" 900 2 3 1;
              player_row "P6" "CM" 900 1 4 1; player_row "P7" "CM" 900 3 2 2;
              player_row "P8" "LW" 900 5 5 4; player_row "P9" "ST" 900 9 1 8;
              player_row "P10" "RW" 900 6 4 5])
    "score" (repeat (Num 1) 11).

(** A solver that puts row [i] in slot [i]. *)
Definition diagonal : LpProblem -> option LpSolution :=
  fun _ => Some (mkSolution Optimal
                   (fun v => if (fst v =? snd v)%nat then Some 1 else Some 0)).

(** The values of the variables are 0 or 1. *)
Definition binary (sol : LpSolution) (x : list var) : Prop :=
  forall v, In v x -> value_of sol v == 0 \/ value_of sol v == 1.

(** ** A constant metric, and a pool with a single midfielder *)

(** Three forwards with the same expected goals, 0.1 each. *)
Definition same_xG : DataFrame :=
  pool_of [player_row "A" "ST" 900 10 1 (binary64 (1#10));
           player_row "B" "ST" 1800 2 3 (binary64 (1#10));
           player_row "C" "ST" 2700 5 0 (binary64 (1#10))].

(** One midfielder with a market value and a [score] column. *)
Definition one_midfielder : DataFrame :=
  setitem
    (setitem (pool_of [player_row "A" "CM" 900 1 5 2]) "market_value_mil" [Num 10])
    "score" [Num 0].

(** A solver that reports infeasibility and leaves every variable at 1. *)
Definition infeasible_ones : LpProblem -> option LpSolution :=
  fun _ => Some (mkSolution Infeasible (fun _ => Some 1)).

(** * Properties *)

(** Case analysis on the four metrics. *)
Ltac each_metric :=
  let m := fresh "m" in
  intros m [<-|[<-|[<-|[<-|[]]]]].


(** ** Eligibility *)

Lemma prefix_append (p s : string) :
  prefix p s = true <-> exists post, s = (p ++ post)%string.
Proof.
  revert s; induction p as [|c p IH]; intros s.
  - split; [intros _; exists s; reflexivity|].
    intros _. destruct s; reflexivity.
  - destruct s as [|d s]; simpl.
    + split; [discriminate|]. intros [post H]; discriminate.
    + destruct (ascii_dec c d) as [->|Hne].
      * rewrite IH. split.
        -- intros [post ->]. exists post. reflexivity.
        -- intros [post H]. injection H as ->. exists post. reflexivity.
      * split; [discriminate|].
        intros [post H]. injection H as H _. congruence.
Qed.

Lemma contains_spec (p s : string) :
  contains p s = true <-> substring_of p s.
Proof.
  induction s as [|c s IH].
  - cbn [contains]. rewrite orb_false_r, prefix_append. split.
    + intros [post H]. exists "", post. exact H.
    + intros [pre [post H]].
      destruct pre; [exists post; exact H | discriminate].
  - cbn [contains]. rewrite orb_true_iff, IH, prefix_append. split.
    + intros [[post H] | [pre [post H]]].
      * exists "", post. exact H.
      * exists (String c pre), post. simpl. now rewrite H.
    + intros [pre [post H]]. destruct pre as [|d pre].
      * left. exists post. exact H.
      * right. simpl in H. injection H as _ H. exists pre, post. exact H.
Qed.

(** C4. A raw position tag is eligible for a slot exactly when one of the
    slot's accepted tags is a substring of the uppercased tag; a slot that the
    eligibility map does not list accepts its own name only. *)
Theorem eligible_iff_accepted_substring (slot raw : string) :
  (eligible slot raw = true <->
   exists tag, In tag (accepted slot) /\ substring_of tag (upper raw)) /\
  accepted slot =
    match lookup slot ELIGIBLE_MAP with Some tags => tags | None => [slot] end.
Proof.
  split; [|reflexivity].
  unfold eligible. rewrite existsb_exists.
  split; intros [tag [Hin H]]; exists tag; split; trivial;
    now apply contains_spec.
Qed.

Example eligible_lwb : eligible "LB" "df,lwb" = true.
Proof. reflexivity. Qed.

Example eligible_unlisted_slot : eligible "SW" "sw" = true /\ eligible "SW" "CB" = false.
Proof. split; reflexivity. Qed.


(** ** Columns of a table *)

Lemma lookup_assign_eq (c : string) (s : Series) (cols : list (string * Series)) :
  lookup c (assign c s cols) = Some s.
Proof.
  induction cols as [|[c' s'] cols IH]; simpl.
  - now rewrite String.eqb_refl.
  - destruct (String.eqb c c') eqn:E; simpl; rewrite ?String.eqb_refl, ?E; auto.
Qed.

Lemma lookup_assign_ne (c c' : string) (s : Series) (cols : list (string * Series)) :
  String.eqb c' c = false ->
  lookup c' (assign c s cols) = lookup c' cols.
Proof.
  intros Hne. induction cols as [|[k v] cols IH]; simpl.
  - now rewrite Hne.
  - destruct (String.eqb c k) eqn:E; simpl.
    + apply String.eqb_eq in E. subst k. now rewrite Hne.
    + now rewrite IH.
Qed.

Lemma getitem_setitem_eq (d : DataFrame) (c : string) (s : Series) :
  getitem (setitem d c s) c = Ok s.
Proof. unfold getitem, setitem; simpl. now rewrite lookup_assign_eq. Qed.

Lemma getitem_setitem_ne (d : DataFrame) (c c' : string) (s : Series) :
  String.eqb c' c = false ->
  getitem (setitem d c s) c' = getitem d c'.
Proof.
  intros H. unfold getitem, setitem; simpl. now rewrite lookup_assign_ne.
Qed.

Lemma index_setitem (d : DataFrame) (c : string) (s : Series) :
  index (setitem d c s) = index d.
Proof. reflexivity. Qed.

(** ** Scoring *)

Section ScoringProperties.

Variable mean_of : list Q -> Q.
Variable std_of : list Q -> Q.

Lemma score_columns_run (w : list (string * Q)) (d : DataFrame)
  (cmin cg ca cx : Series) :
  getitem d "minutes" = Ok cmin ->
  getitem d "goals" = Ok cg ->
  getitem d "assists" = Ok ca ->
  getitem d "xG" = Ok cx ->
  score_columns mean_of std_of w d =
    (Ok tt,
     setitem (with_z mean_of std_of d cmin cg ca cx) "score"
       (weighted_sum w (zscore mean_of std_of cmin) (zscore mean_of std_of cg)
                       (zscore mean_of std_of ca) (zscore mean_of std_of cx))).
Proof.
  intros Hmin Hg Ha Hx.
  unfold score_columns, METRICS, for_each, bind, col, set, ret, with_z.
  cbn [append].
  rewrite Hmin.
  rewrite getitem_setitem_ne, Hg by reflexivity.
  rewrite !getitem_setitem_ne, Ha by reflexivity.
  rewrite !getitem_setitem_ne, Hx by reflexivity.
  rewrite !getitem_setitem_ne, getitem_setitem_eq by reflexivity.
  rewrite !getitem_setitem_ne, getitem_setitem_eq by reflexivity.
  rewrite !getitem_setitem_ne, getitem_setitem_eq by reflexivity.
  rewrite getitem_setitem_eq.
  reflexivity.
Qed.

End ScoringProperties.

Section ScoringObjects.

Variable mean_of : list Q -> Q.
Variable std_of : list Q -> Q.

Lemma score_columns_ok_inv (w : list (string * Q)) (d : DataFrame) (u : unit) :
  fst (score_columns mean_of std_of w d) = Ok u ->
  exists cmin cg ca cx,
    getitem d "minutes" = Ok cmin /\ getitem d "goals" = Ok cg /\
    getitem d "assists" = Ok ca /\ getitem d "xG" = Ok cx.
Proof.
  unfold score_columns, METRICS, for_each, bind, col, set, ret.
  cbn [append].
  destruct (getitem d "minutes") as [cmin|e] eqn:Hmin; [|discriminate].
  rewrite getitem_setitem_ne by reflexivity.
  destruct (getitem d "goals") as [cg|e] eqn:Hg; [|discriminate].
  rewrite !getitem_setitem_ne by reflexivity.
  destruct (getitem d "assists") as [ca|e] eqn:Ha; [|discriminate].
  rewrite !getitem_setitem_ne by reflexivity.
  destruct (getitem d "xG") as [cx|e] eqn:Hx; [|discriminate].
  intros _. now exists cmin, cg, ca, cx.
Qed.

Lemma nth_error_app_length {A} (h : list A) (d : A) :
  nth_error (h ++ [d]) (List.length h) = Some d.
Proof. induction h; simpl; auto. Qed.

Lemma replace_app_length (h : heap) (d d' : DataFrame) :
  replace (List.length h) d' (h ++ [d]) = h ++ [d'].
Proof. induction h; simpl; [reflexivity | now rewrite IHh]. Qed.

Lemma firstn_app_length {A} (h ext : list A) :
  firstn (List.length h) (h ++ ext) = h.
Proof. induction h; simpl; [now destruct ext | now rewrite IHh]. Qed.

(** Running [score_players] on a store: a new table is appended, and it holds
    what the statements on [out] make of a copy of the input. *)
Lemma score_players_run (h : heap) (df : ref) (w : list (string * Q)) (d : DataFrame) :
  nth_error h df = Some d ->
  score_players mean_of std_of df w h =
    (match fst (score_columns mean_of std_of w d) with
     | Ok _ => Ok (List.length h)
     | Raise e => Raise e
     end,
     h ++ [snd (score_columns mean_of std_of w d)]).
Proof.
  intros Hd. unfold score_players, bind, copy, on, ret.
  rewrite Hd, nth_error_app_length.
  destruct (score_columns mean_of std_of w d) as [[u|e] d']; simpl;
    now rewrite replace_app_length.
Qed.

Lemma score_players_dangling (h : heap) (df : ref) (w : list (string * Q)) :
  nth_error h df = None ->
  score_players mean_of std_of df w h = (Raise ReferenceError, h).
Proof. intros Hd. unfold score_players, bind, copy. now rewrite Hd. Qed.

(** The result of [score_players] is the table [scored]. *)
Lemma score_players_scored (h : heap) (df : ref) (w : list (string * Q)) (d : DataFrame) :
  nth_error h df = Some d ->
  match scored mean_of std_of d w with
  | Ok d' => score_players mean_of std_of df w h = (Ok (List.length h), h ++ [d'])
  | Raise e => fst (score_players mean_of std_of df w h) = Raise e
  end.
Proof.
  intros Hd. rewrite (score_players_run _ _ _ _ Hd).
  unfold scored, exec.
  destruct (score_columns mean_of std_of w d) as [[u|e] d']; reflexivity.
Qed.

(** Running [score_for_slot] on a store. *)
Lemma score_for_slot_run (h : heap) (pool : ref) (slot : string) (d : DataFrame) :
  nth_error h pool = Some d ->
  match slot_scored mean_of std_of d slot with
  | Ok d' =>
      exists d1, score_for_slot mean_of std_of pool slot h =
                 (Ok (S (List.length h)), h ++ [d1; d'])
  | Raise e =>
      fst (score_for_slot mean_of std_of pool slot h) = Raise e /\
      exists ext, snd (score_for_slot mean_of std_of pool slot h) = h ++ ext
  end.
Proof.
  intros Hd. unfold slot_scored, score_for_slot, bind.
  pose proof (score_players_scored h pool (slot_weights slot) d Hd) as Hs.
  destruct (scored mean_of std_of d (slot_weights slot)) as [d1|e] eqn:Hsc; cbn [rbind].
  - rewrite Hs. unfold copy, on, ret.
    rewrite nth_error_app_length.
    rewrite nth_error_app_length.
    unfold exec, bind, col, set.
    destruct (getitem d1 "score") as [s|e]; cbn [fst snd];
      rewrite replace_app_length, <- app_assoc; cbn [app].
    + exists d1. now rewrite length_app, Nat.add_1_r.
    + split; [reflexivity|]. now exists [d1; d1].
  - rewrite (score_players_run _ _ _ _ Hd) in *.
    cbn [fst] in Hs. rewrite Hs. cbn. split; [reflexivity|]. eauto.
Qed.

End ScoringObjects.

Section Frame.

Variable mean_of : list Q -> Q.
Variable std_of : list Q -> Q.

Lemma has_column_setitem (d : DataFrame) (c : string) (s : Series) :
  has_column (setitem d c s) c = true.
Proof. unfold has_column, setitem; simpl. now rewrite lookup_assign_eq. Qed.

Lemma scored_has_score (d d' : DataFrame) (w : list (string * Q)) :
  scored mean_of std_of d w = Ok d' -> has_column d' "score" = true.
Proof.
  unfold scored, exec. intros H.
  destruct (score_columns mean_of std_of w d) as [[u|e] d1] eqn:E; [|discriminate].
  injection H as <-.
  destruct (score_columns_ok_inv mean_of std_of w d u) as (cmin & cg & ca & cx & H1 & H2 & H3 & H4).
  { now rewrite E. }
  rewrite (score_columns_run mean_of std_of w d _ _ _ _ H1 H2 H3 H4) in E.
  injection E as _ <-. apply has_column_setitem.
Qed.

Lemma slot_scored_has_score_slot (d d' : DataFrame) (slot : string) :
  slot_scored mean_of std_of d slot = Ok d' -> has_column d' "score_slot" = true.
Proof.
  unfold slot_scored. destruct (scored mean_of std_of d (slot_weights slot)) as [d1|e];
    cbn [rbind]; [|discriminate].
  unfold exec, bind, col, set. destruct (getitem d1 "score"); [|discriminate].
  intros H. injection H as <-. apply has_column_setitem.
Qed.

Lemma score_players_new_table (h : heap) (df : ref) (w : list (string * Q)) (out : ref) :
  fst (score_players mean_of std_of df w h) = Ok out ->
  (List.length h <= out)%nat /\
  exists d', nth_error (snd (score_players mean_of std_of df w h)) out = Some d' /\
             has_column d' "score" = true.
Proof.
  destruct (nth_error h df) as [d|] eqn:Hd.
  - pose proof (score_players_scored mean_of std_of h df w d Hd) as Hs.
    destruct (scored mean_of std_of d w) as [d'|e] eqn:Hsc.
    + rewrite Hs. cbn [fst snd]. intros H. injection H as <-.
      split; [lia|]. exists d'. split; [apply nth_error_app_length|].
      eapply scored_has_score; eauto.
    + rewrite Hs. discriminate.
  - rewrite score_players_dangling by assumption. discriminate.
Qed.

Lemma score_for_slot_dangling (h : heap) (pool : ref) (slot : string) :
  nth_error h pool = None ->
  score_for_slot mean_of std_of pool slot h = (Raise ReferenceError, h).
Proof.
  intros Hd. unfold score_for_slot, bind.
  now rewrite score_players_dangling.
Qed.

(** C9. [score_players] and [score_for_slot] leave every table of the store as
    it was, the caller's pool among them, and return a table that was not
    there before, with the score column attached. *)
Theorem score_players_leaves_the_pool_unchanged
  (h : heap) (df : ref) (w : list (string * Q)) (slot : string) :
  (firstn (List.length h) (snd (score_players mean_of std_of df w h)) = h /\
   forall out, fst (score_players mean_of std_of df w h) = Ok out ->
     (List.length h <= out)%nat /\
     exists d', nth_error (snd (score_players mean_of std_of df w h)) out = Some d' /\
                has_column d' "score" = true) /\
  (firstn (List.length h) (snd (score_for_slot mean_of std_of df slot h)) = h /\
   forall out, fst (score_for_slot mean_of std_of df slot h) = Ok out ->
     (List.length h <= out)%nat /\
     exists d', nth_error (snd (score_for_slot mean_of std_of df slot h)) out = Some d' /\
                has_column d' "score_slot" = true).
Proof.
  split; split.
  - destruct (nth_error h df) as [d|] eqn:Hd.
    + rewrite (score_players_run mean_of std_of _ _ _ _ Hd). apply firstn_app_length.
    + rewrite score_players_dangling by assumption. cbn [snd].
      now rewrite firstn_all.
  - apply score_players_new_table.
  - destruct (nth_error h df) as [d|] eqn:Hd.
    + pose proof (score_for_slot_run mean_of std_of h df slot d Hd) as Hs.
      destruct (slot_scored mean_of std_of d slot) as [d'|e].
      * destruct Hs as [d1 ->]. apply firstn_app_length.
      * destruct Hs as [_ [ext ->]]. apply firstn_app_length.
    + rewrite score_for_slot_dangling by assumption. cbn [snd].
      now rewrite firstn_all.
  - intros out. destruct (nth_error h df) as [d|] eqn:Hd.
    + pose proof (score_for_slot_run mean_of std_of h df slot d Hd) as Hs.
      destruct (slot_scored mean_of std_of d slot) as [d'|e] eqn:Hsc.
      * destruct Hs as [d1 ->]. cbn [fst snd]. intros H. injection H as <-.
        split; [lia|]. exists d'. split.
        -- change (h ++ [d1; d']) with (h ++ [d1] ++ [d']).
           rewrite app_assoc.
           replace (S (List.length h)) with (List.length (h ++ [d1]))
             by (rewrite length_app; simpl; lia).
           apply nth_error_app_length.
        -- eapply slot_scored_has_score_slot; eauto.
      * destruct Hs as [-> _]. discriminate.
    + rewrite score_for_slot_dangling by assumption. discriminate.
Qed.

End Frame.

(** ** Series arithmetic *)

Lemma scale_zero (w : Q) (l : list Q) : w == 0 -> all_zero (scale w l).
Proof.
  intros Hw. unfold all_zero, scale. apply Forall_map, Forall_forall.
  intros q _. rewrite Hw. ring.
Qed.

Lemma scale_all_zero (w : Q) (l : list Q) : all_zero l -> all_zero (scale w l).
Proof.
  unfold all_zero, scale. intros H. apply Forall_map.
  eapply Forall_impl; [|exact H]. cbn. intros q Hq. rewrite Hq. ring.
Qed.

Lemma add_series_zero (a b : list Q) :
  all_zero a -> all_zero b -> all_zero (add_series a b).
Proof.
  unfold all_zero, add_series. intros Ha. revert b.
  induction Ha as [|x a Hx Ha IH]; intros b Hb; [constructor|].
  destruct Hb as [|y b Hy Hb]; [constructor|].
  cbn. constructor; [rewrite Hx, Hy; ring | now apply IH].
Qed.

Lemma to_numeric_of_numeric (l : list float) : to_numeric (of_numeric l) = l.
Proof.
  unfold to_numeric, of_numeric. rewrite map_map.
  rewrite <- (map_id l) at 2. apply map_ext. now intros [q|].
Qed.

Lemma to_numeric_length (s : Series) : List.length (to_numeric s) = List.length s.
Proof. apply length_map. Qed.

Lemma fillna_length (v : Q) (s : list float) : List.length (fillna v s) = List.length s.
Proof. apply length_map. Qed.

Lemma scale_length (w : Q) (s : list Q) : List.length (scale w s) = List.length s.
Proof. apply length_map. Qed.

Lemma add_series_length (a b : list Q) :
  List.length (add_series a b) = Nat.min (List.length a) (List.length b).
Proof. unfold add_series. now rewrite length_map, length_combine. Qed.

Lemma add_series_nth (a b : list Q) (i : nat) :
  (i < List.length a)%nat -> (i < List.length b)%nat ->
  nth i (add_series a b) 0 = nth i a 0 + nth i b 0.
Proof.
  unfold add_series. revert b i.
  induction a as [|x a IH]; intros [|y b] [|i] Ha Hb; simpl in *; try lia.
  - reflexivity.
  - apply IH; lia.
Qed.

Lemma scale_nth (w : Q) (s : list Q) (i : nat) :
  (i < List.length s)%nat -> nth i (scale w s) 0 = w * nth i s 0.
Proof.
  unfold scale. revert i.
  induction s as [|x s IH]; intros [|i] H; simpl in *; try lia.
  - reflexivity.
  - apply IH; lia.
Qed.

Lemma map_Num_nth (l : list Q) (i : nat) :
  (i < List.length l)%nat -> nth i (map Num l) NA = Num (nth i l 0).
Proof.
  revert i. induction l as [|x l IH]; intros [|i] H; simpl in *; try lia.
  - reflexivity.
  - apply IH; lia.
Qed.

Lemma all_zero_nth (l : list Q) (i : nat) : all_zero l -> nth i l 0 == 0.
Proof.
  intros H. revert i. induction H as [|x l Hx _ IH]; intros [|i]; simpl;
    auto; reflexivity.
Qed.

Lemma has_column_getitem (d : DataFrame) (c : string) :
  has_column d c = true ->
  exists s, getitem d c = Ok s /\ lookup c (columns d) = Some s.
Proof.
  unfold has_column, getitem. destruct (lookup c (columns d)) as [s|];
    [eauto | discriminate].
Qed.

Section Scores.

Variable mean_of : list Q -> Q.
Variable std_of : list Q -> Q.

Lemma zscore_length (c : Series) : List.length (zscore mean_of std_of c) = List.length c.
Proof.
  unfold zscore, of_numeric, to_numeric. cbv zeta.
  destruct (degenerate _); now rewrite !length_map.
Qed.

Lemma filled_length (c : Series) :
  List.length (fillna 0 (to_numeric (zscore mean_of std_of c))) = List.length c.
Proof. now rewrite fillna_length, to_numeric_length, zscore_length. Qed.

Lemma weighted_length (w : list (string * Q)) (cmin cg ca cx : Series) (n : nat) :
  List.length cmin = n -> List.length cg = n ->
  List.length ca = n -> List.length cx = n ->
  List.length (weighted w (zscore mean_of std_of cmin) (zscore mean_of std_of cg)
                          (zscore mean_of std_of ca) (zscore mean_of std_of cx)) = n.
Proof.
  intros H1 H2 H3 H4. unfold weighted.
  rewrite !add_series_length, !scale_length, !filled_length. lia.
Qed.

Lemma weighted_nth (w : list (string * Q)) (cmin cg ca cx : Series) (n i : nat) :
  List.length cmin = n -> List.length cg = n ->
  List.length ca = n -> List.length cx = n -> (i < n)%nat ->
  nth i (weighted w (zscore mean_of std_of cmin) (zscore mean_of std_of cg)
                    (zscore mean_of std_of ca) (zscore mean_of std_of cx)) 0 =
  weight w "minutes" * nth i (fillna 0 (to_numeric (zscore mean_of std_of cmin))) 0 +
  weight w "goals" * nth i (fillna 0 (to_numeric (zscore mean_of std_of cg))) 0 +
  weight w "assists" * nth i (fillna 0 (to_numeric (zscore mean_of std_of ca))) 0 +
  weight w "xG" * nth i (fillna 0 (to_numeric (zscore mean_of std_of cx))) 0.
Proof.
  intros H1 H2 H3 H4 Hi. unfold weighted.
  rewrite !add_series_nth, !scale_nth;
    rewrite ?add_series_length, ?scale_length, ?filled_length; try lia.
  reflexivity.
Qed.

(** What [score_players] does on a well-formed pool with the four metrics. *)
Lemma score_players_on_pool (h : heap) (df : ref) (pool : DataFrame)
  (w : list (string * Q)) :
  nth_error h df = Some pool -> well_formed pool -> has_metrics pool ->
  exists cmin cg ca cx,
    getitem pool "minutes" = Ok cmin /\ getitem pool "goals" = Ok cg /\
    getitem pool "assists" = Ok ca /\ getitem pool "xG" = Ok cx /\
    List.length cmin = index pool /\ List.length cg = index pool /\
    List.length ca = index pool /\ List.length cx = index pool /\
    score_players mean_of std_of df w h =
      (Ok (List.length h),
       h ++ [setitem (with_z mean_of std_of pool cmin cg ca cx) "score"
               (map Num (weighted w (zscore mean_of std_of cmin) (zscore mean_of std_of cg)
                                    (zscore mean_of std_of ca) (zscore mean_of std_of cx)))]).
Proof.
  intros Hd Hwf Hm.
  destruct (has_column_getitem pool "minutes") as (cmin & G1 & L1);
    [apply Hm; simpl; auto|].
  destruct (has_column_getitem pool "goals") as (cg & G2 & L2);
    [apply Hm; simpl; auto|].
  destruct (has_column_getitem pool "assists") as (ca & G3 & L3);
    [apply Hm; simpl; auto|].
  destruct (has_column_getitem pool "xG") as (cx & G4 & L4);
    [apply Hm; simpl; auto 6|].
  exists cmin, cg, ca, cx.
  repeat (split; [solve [assumption | eapply Hwf; eassumption]|]).
  pose proof (score_players_scored mean_of std_of h df w pool Hd) as Hs.
  unfold scored, exec in Hs.
  rewrite (score_columns_run mean_of std_of w pool _ _ _ _ G1 G2 G3 G4) in Hs.
  exact Hs.
Qed.

End Scores.

Section ScoreClaims.

Variable mean_of : list Q -> Q.
Variable std_of : list Q -> Q.

Lemma zscore_degenerate_all_zero (c : Series) :
  degenerate (std std_of (to_numeric c)) = true ->
  all_zero (fillna 0 (to_numeric (zscore mean_of std_of c))).
Proof.
  intros H. unfold zscore. cbv zeta. rewrite H, to_numeric_of_numeric.
  unfold all_zero, fillna. rewrite map_map. apply Forall_map, Forall_forall.
  intros [q|] _; cbn; [ring | reflexivity].
Qed.

Lemma degenerate_iff (sd : float) :
  degenerate sd = true <-> (sd = None \/ exists d, sd = Some d /\ d == 0).
Proof.
  destruct sd as [d|]; cbn.
  - rewrite Qeq_bool_iff. split.
    + intros H. right. eauto.
    + intros [H|[d' [H H']]]; [discriminate|]. now injection H as <-.
  - split; auto.
Qed.

(** The z-columns of the table [score_players] builds. *)
Lemma column_scored (d : DataFrame) (cmin cg ca cx s : Series) :
  let out := setitem (with_z mean_of std_of d cmin cg ca cx) "score" s in
  column out "z_minutes" = zscore mean_of std_of cmin /\
  column out "z_goals" = zscore mean_of std_of cg /\
  column out "z_assists" = zscore mean_of std_of ca /\
  column out "z_xG" = zscore mean_of std_of cx.
Proof.
  unfold column, with_z, setitem; cbn [columns].
  repeat split;
    repeat first [ rewrite lookup_assign_eq; reflexivity
                 | rewrite lookup_assign_ne by reflexivity ].
Qed.

(** C6. With the four weights supplied and zero, [score_players] gives every
    row of the pool the score 0. *)
Theorem zero_weights_give_zero_scores (h : heap) (df : ref) (pool : DataFrame)
  (w : list (string * Q)) :
  nth_error h df = Some pool -> well_formed pool -> has_metrics pool ->
  (forall m, In m METRICS -> exists q, lookup m w = Some q /\ q == 0) ->
  exists out d',
    score_players mean_of std_of df w h = (Ok out, h ++ [d']) /\
    index d' = index pool /\
    forall i, (i < index pool)%nat ->
      exists q, loc d' i "score" = Ok (Num q) /\ q == 0.
Proof.
  intros Hd Hwf Hm Hw.
  destruct (score_players_on_pool mean_of std_of h df pool w Hd Hwf Hm)
    as (cmin & cg & ca & cx & _ & _ & _ & _ & L1 & L2 & L3 & L4 & Hrun).
  eexists _, _. split; [exact Hrun|]. split; [reflexivity|].
  intros i Hi. unfold loc. rewrite getitem_setitem_eq. cbn [rbind].
  rewrite map_Num_nth by (now rewrite (weighted_length mean_of std_of w _ _ _ _ _ L1 L2 L3 L4)).
  eexists. split; [reflexivity|].
  apply all_zero_nth.
  assert (Hz : forall m, In m METRICS -> weight w m == 0).
  { intros m Hin. destruct (Hw m Hin) as (q & Hq & Hq0).
    unfold weight, get. now rewrite Hq. }
  unfold weighted.
  repeat apply add_series_zero; apply scale_zero; apply Hz; simpl; auto 6.
Qed.

(** X20. When the standard deviation pandas returns for a metric is NaN (no
    value or a single one, so also an empty pool) or exactly 0, the metric
    adds exactly 0 to the score of every row, and the score is the number
    that the four terms sum to. *)
Theorem degenerate_metric_contributes_zero (h : heap) (df : ref)
  (pool : DataFrame) (w : list (string * Q)) (m : string) (c : Series) :
  nth_error h df = Some pool -> well_formed pool -> has_metrics pool ->
  In m METRICS -> getitem pool m = Ok c ->
  (std std_of (to_numeric c) = None \/
   exists sd, std std_of (to_numeric c) = Some sd /\ sd == 0) ->
  exists out d',
    score_players mean_of std_of df w h = (Ok out, h ++ [d']) /\
    forall i, (i < index pool)%nat ->
      contribution w d' m i == 0 /\
      exists q, loc d' i "score" = Ok (Num q) /\
                q == Qsum (map (fun m' => contribution w d' m' i) METRICS).
Proof.
  intros Hd Hwf Hm Hin Hc Hsd.
  apply degenerate_iff in Hsd.
  destruct (score_players_on_pool mean_of std_of h df pool w Hd Hwf Hm)
    as (cmin & cg & ca & cx & G1 & G2 & G3 & G4 & L1 & L2 & L3 & L4 & Hrun).
  eexists _, _. split; [exact Hrun|].
  intros i Hi.
  destruct (column_scored pool cmin cg ca cx
              (map Num (weighted w (zscore mean_of std_of cmin) (zscore mean_of std_of cg)
                                   (zscore mean_of std_of ca) (zscore mean_of std_of cx))))
    as (C1 & C2 & C3 & C4).
  split.
  - unfold contribution.
    assert (Hz : all_zero (fillna 0 (to_numeric (zscore mean_of std_of c))))
      by now apply zscore_degenerate_all_zero.
    simpl in Hin.
    destruct Hin as [<-|[<-|[<-|[<-|[]]]]]; cbn [append];
      rewrite ?C1, ?C2, ?C3, ?C4;
      [ rewrite G1 in Hc | rewrite G2 in Hc | rewrite G3 in Hc | rewrite G4 in Hc ];
      injection Hc as <-; rewrite (all_zero_nth _ i Hz); ring.
  - unfold loc. rewrite getitem_setitem_eq. cbn [rbind].
    rewrite map_Num_nth
      by (now rewrite (weighted_length mean_of std_of w _ _ _ _ _ L1 L2 L3 L4)).
    eexists. split; [reflexivity|].
    rewrite (weighted_nth mean_of std_of w _ _ _ _ _ i L1 L2 L3 L4 Hi).
    unfold METRICS, contribution. cbn [map Qsum fold_right append].
    rewrite C1, C2, C3, C4. ring.
Qed.

End ScoreClaims.

(** ** The comparator *)

Lemma lookup_In {A} (k : string) (d : list (string * A)) (v : A) :
  lookup k d = Some v -> In (k, v) d.
Proof.
  induction d as [|[k' v'] d IH]; simpl; [discriminate|].
  destruct (String.eqb k k') eqn:E.
  - intros [= <-]. apply String.eqb_eq in E. subst. now left.
  - intros H. right. now apply IH.
Qed.

Lemma well_formedb_sound (d : DataFrame) : well_formedb d = true -> well_formed d.
Proof.
  unfold well_formedb, well_formed. rewrite forallb_forall. intros H c s Hl.
  apply lookup_In, H in Hl. now apply Nat.eqb_eq in Hl.
Qed.

Section ComparatorProperties.

Variable mean_of : list Q -> Q.

Lemma agg_to_dataframe (a : Squad) :
  slots a <> [] ->
  let df := to_dataframe a in
  agg mean_of df =
  Ok [ ("Valor total (M€)", Some (Qsum (fillna 0 (to_numeric (column df "Valor M€")))));
       ("Edad media", mean mean_of (ages a));
       ("Min totales", Some (Qsum (fillna 0 (to_numeric (column df "Min")))));
       ("Goles totales", Some (Qsum (fillna 0 (to_numeric (column df "Goles")))));
       ("Asist totales", Some (Qsum (fillna 0 (to_numeric (column df "Asist")))));
       ("xG total", Some (Qsum (fillna 0 (to_numeric (column df "xG"))))) ].
Proof.
  intros Hne. unfold ages, to_dataframe.
  destruct (slots a) as [|s ss]; [congruence|]. reflexivity.
Qed.

(** C7, amended. Comparing a squad with itself gives the difference 0 for the
    five totals; for the mean age it gives 0 when some slot has a numeric age
    and NaN when none has. *)
Theorem compare_squads_same (a : Squad) :
  slots a <> [] ->
  exists rows,
    compare_squads mean_of a a = Ok rows /\
    map metric rows =
      ["Valor total (M€)"; "Edad media"; "Min totales"; "Goles totales";
       "Asist totales"; "xG total"] /\
    (forall r, In r rows -> is_sum r = true ->
       exists q, delta r = Some q /\ q == 0) /\
    (forall r, In r rows -> is_sum r = false ->
       match present (ages a) with
       | [] => delta r = None
       | _ :: _ => exists q, delta r = Some q /\ q == 0
       end).
Proof.
  intros Hne. unfold compare_squads.
  rewrite (agg_to_dataframe a Hne). cbn [rbind combine map fst snd].
  eexists. split; [reflexivity|]. split; [reflexivity|]. split.
  - intros r Hin Hs. cbn [In] in Hin.
    destruct Hin as [<-|[<-|[<-|[<-|[<-|[<-|[]]]]]]]; try discriminate Hs;
      cbn [delta nan_op]; eexists; (split; [reflexivity|ring]).
  - intros r Hin Hs. cbn [In] in Hin.
    destruct Hin as [<-|[<-|[<-|[<-|[<-|[<-|[]]]]]]]; try discriminate Hs.
    cbn [delta]. unfold mean.
    destruct (present (ages a)) as [|x l]; [reflexivity|].
    cbn [nan_op]. eexists. split; [reflexivity|ring].
Qed.

End ComparatorProperties.

(** C7, the counterexample: the squad [Squad()] builds has no ages, its mean
    age is NaN, and so is the difference of the mean ages. *)
Lemma compare_squads_same_empty_squad :
  new_squad "4-3-3" = Ok empty_433 /\
  exists rows, compare_squads nanmean empty_433 empty_433 = Ok rows /\
               In (mkDelta "Edad media" None None None) rows.
Proof.
  split; [reflexivity|]. eexists. split; [reflexivity|]. simpl. auto.
Qed.

(** ** The claims on sample data *)

Lemma zero_weights_give_zero_scores_witness :
  exists out d',
    score_players nanmean nanstd 0%nat zero_weights [two_strikers]
      = (Ok out, [two_strikers] ++ [d']) /\
    index d' = index two_strikers /\
    forall i, (i < index two_strikers)%nat ->
      exists q, loc d' i "score" = Ok (Num q) /\ q == 0.
Proof.
  apply (zero_weights_give_zero_scores nanmean nanstd [two_strikers] 0%nat
           two_strikers zero_weights).
  - reflexivity.
  - apply well_formedb_sound. reflexivity.
  - each_metric; reflexivity.
  - each_metric; eexists; split; reflexivity.
Defined.

Lemma degenerate_metric_contributes_zero_witness :
  exists out d',
    score_players nanmean nanstd 0%nat [] [two_strikers]
      = (Ok out, [two_strikers] ++ [d']) /\
    forall i, (i < index two_strikers)%nat ->
      contribution [] d' "minutes" i == 0 /\
      exists q, loc d' i "score" = Ok (Num q) /\
                q == Qsum (map (fun m' => contribution [] d' m' i) METRICS).
Proof.
  apply (degenerate_metric_contributes_zero nanmean nanstd [two_strikers] 0%nat
           two_strikers [] "minutes" [Num 900; Num 900]).
  - reflexivity.
  - apply well_formedb_sound. reflexivity.
  - each_metric; reflexivity.
  - simpl. auto.
  - reflexivity.
  - right. eexists. split; [vm_compute; reflexivity | reflexivity].
Defined.

(** C5, evaluated: three forwards whose xG is 0.1 each.  The metric is
    constant, yet the mean pandas computes is 0.10000000000000002, above the
    value of every row, and the standard deviation is 1.6996749443881478e-17,
    not 0: [zscore] divides, every row gets the z-score -0.8165, and with the
    weights of a forward (0.3 for xG) the metric takes 0.2449 off every
    score. *)
Theorem constant_metric_contributes_nonzero :
  column same_xG "xG" = repeat (Num (binary64 (1#10))) 3 /\
  (exists mu sd,
     mean nanmean (to_numeric (column same_xG "xG")) = Some mu /\
     std nanstd (to_numeric (column same_xG "xG")) = Some sd /\
     binary64 (1#10) < mu /\ 0 < sd) /\
  exists out d',
    score_players nanmean nanstd 0%nat (slot_weights "ST") [same_xG]
      = (Ok out, [same_xG; d']) /\
    forall i, (i < 3)%nat ->
      contribution (slot_weights "ST") d' "xG" i < - (24 # 100).
Proof.
  split; [reflexivity|]. split.
  - eexists _, _. split; [vm_compute; reflexivity|].
    split; [vm_compute; reflexivity|]. split; reflexivity.
  - eexists _, _. split; [vm_compute; reflexivity|].
    intros [|[|[|i]]] Hi; [reflexivity | reflexivity | reflexivity | lia].
Qed.

Lemma compare_squads_same_witness :
  exists rows,
    compare_squads nanmean empty_433 empty_433 = Ok rows /\
    map metric rows =
      ["Valor total (M€)"; "Edad media"; "Min totales"; "Goles totales";
       "Asist totales"; "xG total"] /\
    (forall r, In r rows -> is_sum r = true ->
       exists q, delta r = Some q /\ q == 0) /\
    (forall r, In r rows -> is_sum r = false ->
       match present (ages empty_433) with
       | [] => delta r = None
       | _ :: _ => exists q, delta r = Some q /\ q == 0
       end).
Proof.
  apply (compare_squads_same nanmean empty_433). discriminate.
Defined.

(** ** The table [score_for_slot] returns *)

Section SlotScored.

Variable mean_of : list Q -> Q.
Variable std_of : list Q -> Q.

Lemma slot_scored_inv (d sc : DataFrame) (slot : string) :
  slot_scored mean_of std_of d slot = Ok sc ->
  index sc = index d /\
  (forall c, mem c ["z_minutes"; "z_goals"; "z_assists"; "z_xG"; "score";
                    "score_slot"] = false ->
             getitem sc c = getitem d c).
Proof.
  unfold slot_scored, scored, exec.
  destruct (score_columns mean_of std_of (slot_weights slot) d) as [[u|e] d1] eqn:E;
    cbn [rbind]; [|discriminate].
  destruct (score_columns_ok_inv mean_of std_of (slot_weights slot) d u)
    as (cmin & cg & ca & cx & H1 & H2 & H3 & H4); [now rewrite E|].
  rewrite (score_columns_run mean_of std_of _ d _ _ _ _ H1 H2 H3 H4) in E.
  injection E as _ <-.
  unfold bind, col, set. rewrite getitem_setitem_eq.
  intros H. injection H as <-. split; [reflexivity|].
  intros c Hc. cbn in Hc. rewrite !orb_false_r in Hc.
  repeat (apply orb_false_elim in Hc; destruct Hc as [? Hc]).
  unfold with_z. now rewrite !getitem_setitem_ne.
Qed.

Lemma slot_scored_total (d : DataFrame) (slot : string) :
  has_metrics d -> exists sc, slot_scored mean_of std_of d slot = Ok sc.
Proof.
  intros Hm.
  destruct (has_column_getitem d "minutes") as (cmin & G1 & _);
    [apply Hm; simpl; auto|].
  destruct (has_column_getitem d "goals") as (cg & G2 & _);
    [apply Hm; simpl; auto|].
  destruct (has_column_getitem d "assists") as (ca & G3 & _);
    [apply Hm; simpl; auto|].
  destruct (has_column_getitem d "xG") as (cx & G4 & _);
    [apply Hm; simpl; auto 6|].
  unfold slot_scored, scored, exec.
  rewrite (score_columns_run mean_of std_of _ d _ _ _ _ G1 G2 G3 G4). cbn [rbind].
  unfold bind, col, set. rewrite getitem_setitem_eq. eauto.
Qed.

Lemma slot_scored_pos (d sc : DataFrame) (slot : string) (i : nat) :
  slot_scored mean_of std_of d slot = Ok sc -> loc sc i "pos" = loc d i "pos".
Proof.
  intros H. apply slot_scored_inv in H as [_ H].
  unfold loc. now rewrite H.
Qed.

End SlotScored.

(** ** The cost matrix *)

Lemma nth_error_repeat {A} (v : A) (n i : nat) :
  (i < n)%nat -> nth_error (repeat v n) i = Some v.
Proof.
  revert i. induction n as [|n IH]; intros [|i] H; simpl; try lia; auto.
  apply IH. lia.
Qed.

Lemma cost_at_full (n m i j : nat) (v : Q) :
  (i < n)%nat -> (j < m)%nat -> cost_at (full n m v) i j = Ok v.
Proof.
  intros Hi Hj. unfold cost_at, full.
  now rewrite (nth_error_repeat _ n i Hi), (nth_error_repeat _ m j Hj).
Qed.

Lemma Qlt_bool_irrefl (q : Q) : Qlt_bool q q = false.
Proof.
  unfold Qlt_bool. apply negb_false_iff, Qle_bool_iff. apply Qle_refl.
Qed.

Section NoCandidates.

Variable mean_of : list Q -> Q.
Variable std_of : list Q -> Q.
Variable linear_sum_assignment : matrix -> list nat * list nat.
Variable solve : LpProblem -> option LpSolution.

Lemma fill_rows_no_candidates (sc : DataFrame) (slot : string) (j : nat)
  (rows : list nat) (cost : matrix) :
  (forall i, In i rows ->
     exists p, loc sc i "pos" = Ok p /\ eligible slot (str p) = false) ->
  fill_rows sc slot j rows cost = Ok cost.
Proof.
  induction rows as [|i rows IH]; intros H; simpl; [reflexivity|].
  destruct (H i) as (p & Hp & He); [now left|].
  rewrite Hp. cbn [rbind]. rewrite He. apply IH.
  intros k Hk. apply H. now right.
Qed.

Lemma fill_cost_no_candidates (pool : DataFrame) (slots : list string) (j : nat)
  (cost : matrix) :
  has_metrics pool -> no_candidates slots pool ->
  fill_cost mean_of std_of pool slots j cost = Ok cost.
Proof.
  intros Hm. revert j. induction slots as [|slot rest IH]; intros j Hn;
    simpl; [reflexivity|].
  destruct (slot_scored_total mean_of std_of pool slot Hm) as [sc Hsc].
  rewrite Hsc. cbn [rbind].
  rewrite fill_rows_no_candidates.
  - cbn [rbind]. apply IH. intros i s Hi Hs. apply Hn; [exact Hi | now right].
  - intros i Hi. apply in_seq in Hi.
    destruct (slot_scored_inv mean_of std_of pool sc slot Hsc) as [Hidx _].
    destruct (Hn i slot) as (p & Hp & He); [lia | now left |].
    exists p. split; [|exact He].
    now rewrite (slot_scored_pos mean_of std_of pool sc slot i Hsc).
Qed.

Lemma choose_all_sentinel (n m : nat) (slots : list string) (pool : DataFrame)
  (pairs : list (nat * nat)) (chosen : list (string * dict))
  (used : list string) :
  Forall (fun p => (fst p < n)%nat /\ (snd p < m)%nat) pairs ->
  choose (full n m SENTINEL) slots pool pairs chosen used = Ok chosen.
Proof.
  induction 1 as [|[i j] pairs [Hi Hj] _ IH]; simpl; [reflexivity|].
  cbn [fst snd] in Hi, Hj.
  rewrite (cost_at_full n m i j SENTINEL Hi Hj). cbn [rbind].
  rewrite Qlt_bool_irrefl. cbn [rbind fst snd].
  destruct (_ =? _)%nat; [reflexivity | exact IH].
Qed.

Lemma hungarian_no_candidates (slots : list string) (pool : DataFrame) :
  has_metrics pool -> no_candidates slots pool ->
  in_range (index pool) (List.length slots)
    (linear_sum_assignment (full (index pool) (List.length slots) SENTINEL)) ->
  hungarian mean_of std_of linear_sum_assignment slots pool = Ok [].
Proof.
  intros Hm Hn Hr. unfold hungarian.
  rewrite (fill_cost_no_candidates pool slots 0 _ Hm Hn). cbn [rbind].
  unfold in_range in Hr.
  destruct (linear_sum_assignment _) as [row_ind col_ind].
  now apply choose_all_sentinel.
Qed.

Lemma eligible_vars_none (pool : DataFrame) (i : nat) (slots : list string)
  (j : nat) :
  (forall slot, In slot slots ->
     exists p, loc pool i "pos" = Ok p /\ eligible slot (str p) = false) ->
  eligible_vars pool i slots j = Ok [].
Proof.
  revert j. induction slots as [|slot rest IH]; intros j He;
    simpl; [reflexivity|].
  destruct (He slot) as (p & Hp & Hs); [now left|].
  rewrite Hp. cbn [rbind]. rewrite IH by (intros s Hin; apply He; now right).
  cbn [rbind]. now rewrite Hs.
Qed.

Lemma lp_variables_none (pool : DataFrame) (slots : list string) (rows : list nat) :
  no_candidates slots pool ->
  (forall i, In i rows -> (i < index pool)%nat) ->
  lp_variables pool slots rows = Ok [].
Proof.
  intros Hn. induction rows as [|i rows IH]; intros Hr; simpl; [reflexivity|].
  rewrite (eligible_vars_none pool i slots 0)
    by (intros s Hs; apply Hn; [apply Hr; now left | exact Hs]).
  cbn [rbind].
  rewrite IH by (intros k Hk; apply Hr; now right). reflexivity.
Qed.

Lemma eligible_vars_nil_inv (pool : DataFrame) (i : nat) (slots : list string)
  (j : nat) :
  eligible_vars pool i slots j = Ok [] ->
  forall slot, In slot slots ->
    exists p, loc pool i "pos" = Ok p /\ eligible slot (str p) = false.
Proof.
  revert j. induction slots as [|slot rest IH]; intros j H s Hs;
    [destruct Hs|].
  simpl in H.
  destruct (loc pool i "pos") as [p|e]; cbn [rbind] in H; [|discriminate].
  destruct (eligible_vars pool i rest (S j)) as [tl|e] eqn:E;
    cbn [rbind] in H; [|discriminate].
  destruct (eligible slot (str p)) eqn:He; [discriminate|].
  injection H as ->.
  destruct Hs as [<-|Hs]; [eauto|].
  destruct (IH _ E s Hs) as (p' & Hp' & He'). eauto.
Qed.

Lemma lp_variables_nil_inv (pool : DataFrame) (slots : list string) (rows : list nat) :
  lp_variables pool slots rows = Ok [] ->
  forall i slot, In i rows -> In slot slots ->
    exists p, loc pool i "pos" = Ok p /\ eligible slot (str p) = false.
Proof.
  induction rows as [|k rows IH]; intros H i s Hi Hs; [destruct Hi|].
  simpl in H.
  destruct (eligible_vars pool k slots 0) as [a|e] eqn:Ea;
    cbn [rbind] in H; [|discriminate].
  destruct (lp_variables pool slots rows) as [b|e] eqn:Eb;
    cbn [rbind] in H; [|discriminate].
  injection H as H. apply app_eq_nil in H as [-> ->].
  destruct Hi as [<-|Hi].
  - eapply eligible_vars_nil_inv; eauto.
  - now apply IH.
Qed.

Lemma ilp_no_candidates (slots : list string) (pool : DataFrame) (b : Q) :
  no_candidates slots pool ->
  ilp solve slots pool b = Ok [] \/ exists e, ilp solve slots pool b = Raise e.
Proof.
  intros Hn. unfold ilp, lp_problem.
  rewrite (lp_variables_none pool slots _ Hn)
    by (intros i Hi; apply in_seq in Hi; lia).
  cbn [rbind lp_objective].
  destruct (budget_constraint pool [] b) as [bc|e]; cbn [rbind variables];
    [|eauto].
  destruct (solve _) as [sol|]; [left; reflexivity | eauto].
Qed.

(** With no candidate anywhere the optimiser returns the empty assignment. *)
Lemma optimize_xi_no_candidates (formation : string) (slots : list string)
  (pool : DataFrame) (budget_mil : option Q) :
  lookup formation FORMATIONS = Some slots ->
  has_metrics pool -> no_candidates slots pool ->
  in_range (index pool) (List.length slots)
    (linear_sum_assignment (full (index pool) (List.length slots) SENTINEL)) ->
  optimize_xi mean_of std_of linear_sum_assignment solve formation pool budget_mil = Ok [].
Proof.
  intros Hf Hm Hn Hr. unfold optimize_xi. rewrite Hf.
  pose proof (hungarian_no_candidates slots pool Hm Hn Hr) as Hh.
  destruct budget_mil as [b|]; [|exact Hh].
  destruct (ilp_no_candidates slots pool b Hn) as [-> | [e ->]];
    [reflexivity | exact Hh].
Qed.

End NoCandidates.

(** ** Empty pools, pools without candidates, pools without a score *)

Lemma empty_pool_no_candidates (slots : list string) (pool : DataFrame) :
  index pool = 0%nat -> no_candidates slots pool.
Proof. intros H i slot Hi. lia. Qed.

Section EdgeCases.

Variable mean_of : list Q -> Q.
Variable std_of : list Q -> Q.
Variable linear_sum_assignment : matrix -> list nat * list nat.
Variable solve : LpProblem -> option LpSolution.

(** C8. On an empty pool, and on a pool none of whose rows is eligible for a
    slot of the formation, [optimize_xi] returns the empty assignment, with a
    budget or without. *)
Theorem optimize_xi_empty_assignment (formation : string) (slots : list string)
  (pool : DataFrame) (budget_mil : option Q) :
  lookup formation FORMATIONS = Some slots ->
  has_metrics pool ->
  index pool = 0%nat \/ no_candidates slots pool ->
  in_range (index pool) (List.length slots)
    (linear_sum_assignment (full (index pool) (List.length slots) SENTINEL)) ->
  optimize_xi mean_of std_of linear_sum_assignment solve formation pool budget_mil = Ok [].
Proof.
  intros Hf Hm Hc Hr.
  apply (optimize_xi_no_candidates mean_of std_of linear_sum_assignment solve
           formation slots); auto.
  destruct Hc as [H0|Hn]; [now apply empty_pool_no_candidates | exact Hn].
Qed.

Lemma lp_objective_no_score (pool : DataFrame) (v : var) (x : list var) :
  has_column pool "score" = false ->
  lp_objective pool (v :: x) = Raise (KeyError "score").
Proof.
  unfold has_column. intros H. destruct v as [i j]. simpl.
  unfold loc, getitem.
  destruct (lookup "score" (columns pool)); [discriminate | reflexivity].
Qed.

(** C10. On a pool without a [score] column a call with a budget returns what
    the unconstrained branch returns: the integer-programming branch raises
    as soon as one row is eligible for one slot, and with no candidate at all
    both branches give the empty assignment. *)
Theorem optimize_xi_without_score_ignores_budget (formation : string)
  (slots : list string) (pool : DataFrame) (b : Q) :
  lookup formation FORMATIONS = Some slots ->
  has_column pool "score" = false ->
  has_metrics pool ->
  in_range (index pool) (List.length slots)
    (linear_sum_assignment (full (index pool) (List.length slots) SENTINEL)) ->
  optimize_xi mean_of std_of linear_sum_assignment solve formation pool (Some b)
    = hungarian mean_of std_of linear_sum_assignment slots pool /\
  optimize_xi mean_of std_of linear_sum_assignment solve formation pool (Some b)
    = optimize_xi mean_of std_of linear_sum_assignment solve formation pool None /\
  ((exists e, ilp solve slots pool b = Raise e) \/
   (no_candidates slots pool /\
    hungarian mean_of std_of linear_sum_assignment slots pool = Ok [])).
Proof.
  intros Hf Hs Hm Hr.
  assert (H : (exists e, ilp solve slots pool b = Raise e) \/
              (no_candidates slots pool /\
               hungarian mean_of std_of linear_sum_assignment slots pool = Ok [])).
  { unfold ilp, lp_problem.
    destruct (lp_variables pool slots (seq 0 (index pool))) as [[|v x]|e] eqn:E.
    - right.
      assert (Hn : no_candidates slots pool).
      { intros i slot Hi Hin.
        apply (lp_variables_nil_inv pool slots _ E); [|exact Hin].
        apply in_seq. lia. }
      split; [exact Hn|].
      now apply hungarian_no_candidates.
    - left. cbn [rbind]. rewrite lp_objective_no_score by exact Hs.
      cbn [rbind]. eauto.
    - left. cbn [rbind]. eauto. }
  assert (Hopt : optimize_xi mean_of std_of linear_sum_assignment solve formation pool (Some b)
                 = hungarian mean_of std_of linear_sum_assignment slots pool).
  { unfold optimize_xi. rewrite Hf.
    destruct H as [[e ->] | [Hn Hh]]; [reflexivity|].
    destruct (ilp_no_candidates solve slots pool b Hn) as [-> | [e ->]];
      [now rewrite Hh | reflexivity]. }
  split; [exact Hopt|]. split; [|exact H].
  rewrite Hopt. unfold optimize_xi. now rewrite Hf.
Qed.

End EdgeCases.

(** ** Entries of the cost matrix *)

Lemma set_nth_inv {A} (k k' : nat) (v x : A) (l : list A) :
  nth_error (set_nth k v l) k' = Some x ->
  (k' = k /\ x = v) \/ nth_error l k' = Some x.
Proof.
  revert k k'. induction l as [|a l IH]; intros [|k] [|k'] H; simpl in *;
    try discriminate; auto.
  - injection H as <-. auto.
  - destruct (IH _ _ H) as [[-> ->]|H']; auto.
Qed.

Lemma set_cost_inv (i j i' j' : nat) (v q : Q) (cost : matrix) :
  cost_at (set_cost i j v cost) i' j' = Ok q ->
  (i' = i /\ j' = j /\ q = v) \/ cost_at cost i' j' = Ok q.
Proof.
  unfold set_cost, cost_at.
  destruct (nth_error cost i) as [row|] eqn:Hrow; [|auto].
  destruct (nth_error (set_nth i (set_nth j v row) cost) i') as [r|] eqn:Hr;
    [|discriminate].
  apply set_nth_inv in Hr as [[-> ->]|Hr].
  - rewrite Hrow.
    destruct (nth_error (set_nth j v row) j') as [x|] eqn:Hx; [|discriminate].
    intros H. injection H as ->.
    apply set_nth_inv in Hx as [[-> ->]|Hx]; [auto|].
    right. now rewrite Hx.
  - rewrite Hr. auto.
Qed.

Lemma cost_at_full_inv (n m i j : nat) (v q : Q) :
  cost_at (full n m v) i j = Ok q -> q = v.
Proof.
  unfold cost_at, full.
  destruct (nth_error (repeat (repeat v m) n) i) as [row|] eqn:Hrow;
    [|discriminate].
  apply nth_error_In, repeat_spec in Hrow. subst row.
  destruct (nth_error (repeat v m) j) as [x|] eqn:Hx; [|discriminate].
  apply nth_error_In, repeat_spec in Hx. now intros [= <-].
Qed.

Lemma cost_sound_full (slots : list string) (pool : DataFrame) (n m : nat) :
  cost_sound slots pool (full n m SENTINEL).
Proof.
  intros i j q Hq Hlt. apply cost_at_full_inv in Hq. subst q.
  now rewrite Qlt_bool_irrefl in Hlt.
Qed.

Section CostMatrix.

Variable mean_of : list Q -> Q.
Variable std_of : list Q -> Q.

Lemma fill_rows_sound (slots : list string) (pool sc : DataFrame) (slot : string)
  (j : nat) (rows : list nat) (cost cost' : matrix) :
  nth_error slots j = Some slot ->
  (forall i, loc sc i "pos" = loc pool i "pos") ->
  cost_sound slots pool cost ->
  fill_rows sc slot j rows cost = Ok cost' ->
  cost_sound slots pool cost'.
Proof.
  intros Hj Hpos. revert cost.
  induction rows as [|i rows IH]; intros cost Hs H; simpl in H.
  - now injection H as <-.
  - destruct (loc sc i "pos") as [p|e] eqn:Hp; cbn [rbind] in H; [|discriminate].
    destruct (eligible slot (str p)) eqn:He; [|eapply IH; eauto].
    destruct (float_of _) as [v|e]; cbn [rbind] in H; [|discriminate].
    refine (IH _ _ H). clear H.
    intros i' j' q Hq Hlt.
    apply set_cost_inv in Hq as [(-> & -> & ->)|Hq]; [|eauto].
    exists slot, p. rewrite <- Hpos. auto.
Qed.

Lemma fill_cost_sound (slots : list string) (pool : DataFrame)
  (rest : list string) (j : nat) (cost cost' : matrix) :
  (forall k, nth_error rest k = nth_error slots (j + k)) ->
  cost_sound slots pool cost ->
  fill_cost mean_of std_of pool rest j cost = Ok cost' ->
  cost_sound slots pool cost'.
Proof.
  revert j cost. induction rest as [|slot rest IH]; intros j cost Hk Hs H;
    simpl in H.
  - now injection H as <-.
  - destruct (slot_scored mean_of std_of pool slot) as [sc|e] eqn:Hsc;
      cbn [rbind] in H; [|discriminate].
    destruct (fill_rows sc slot j (seq 0 (index sc)) cost) as [c1|e] eqn:Hc1;
      cbn [rbind] in H; [|discriminate].
    apply (IH (S j) c1); [| |exact H].
    + intros k. specialize (Hk (S k)). simpl in Hk.
      now rewrite Nat.add_succ_r in Hk.
    + apply (fill_rows_sound slots pool sc slot j (seq 0 (index sc)) cost c1);
        [ | | exact Hs | exact Hc1 ].
      * specialize (Hk 0%nat). simpl in Hk. rewrite Nat.add_0_r in Hk.
        now symmetry.
      * intros i. eapply slot_scored_pos; eauto.
Qed.

End CostMatrix.

(** ** The assignment read off the solver's pairs *)

Lemma lookup_row_dict (d : DataFrame) (i : nat) (c : string) :
  lookup c (row_dict d i) =
  option_map (fun s => nth i s NA) (lookup c (columns d)).
Proof.
  unfold row_dict. induction (columns d) as [|[k v] l IH]; simpl; [reflexivity|].
  now destruct (String.eqb c k).
Qed.

Lemma row_dict_get (d : DataFrame) (i : nat) (c : string) (p : cell) :
  loc d i c = Ok p -> get (row_dict d i) c NA = p.
Proof.
  unfold loc, getitem, get. rewrite lookup_row_dict.
  destruct (lookup c (columns d)) as [s|]; cbn; [|discriminate].
  now intros [= <-].
Qed.

Lemma iloc_inv (d : DataFrame) (i : nat) (r : dict) :
  iloc d i = Ok r -> (i < index d)%nat /\ r = row_dict d i.
Proof.
  unfold iloc. destruct (i <? index d)%nat eqn:E; [|discriminate].
  apply Nat.ltb_lt in E. now intros [= <-].
Qed.

Lemma slot_at_inv (slots : list string) (j : nat) (slot : string) :
  slot_at slots j = Ok slot -> nth_error slots j = Some slot.
Proof.
  unfold slot_at. destruct (nth_error slots j); [now intros [= <-] | discriminate].
Qed.

Lemma choose_sound (cost : matrix) (slots : list string) (pool : DataFrame)
  (pairs : list (nat * nat)) (chosen : list (string * dict))
  (used : list string) (sel : list (string * dict)) :
  cost_sound slots pool cost ->
  choose cost slots pool pairs chosen used = Ok sel ->
  exists kept : list (nat * string),
    sel = chosen ++ map (fun k => (snd k, row_dict pool (fst k))) kept /\
    incl (map fst kept) (map fst pairs) /\
    (NoDup (map fst pairs) -> NoDup (map fst kept)) /\
    forall i slot, In (i, slot) kept ->
      eligible slot (str (get (row_dict pool i) "pos" NA)) = true.
Proof.
  intros Hs. revert chosen used sel.
  induction pairs as [|[i j] rest IH]; intros chosen used sel H; simpl in H.
  - injection H as <-. exists []. rewrite app_nil_r.
    repeat split; auto using incl_nil_l, NoDup_nil; intros ? ? [].
  - destruct (cost_at cost i j) as [c|e] eqn:Hc; cbn [rbind] in H;
      [|discriminate].
    assert (Hskip : forall sel',
      (if (List.length used =? List.length slots)%nat then Ok chosen
       else choose cost slots pool rest chosen used) = Ok sel' ->
      exists kept : list (nat * string),
        sel' = chosen ++ map (fun k => (snd k, row_dict pool (fst k))) kept /\
        incl (map fst kept) (map fst ((i, j) :: rest)) /\
        (NoDup (map fst ((i, j) :: rest)) -> NoDup (map fst kept)) /\
        forall i slot, In (i, slot) kept ->
          eligible slot (str (get (row_dict pool i) "pos" NA)) = true).
    { intros sel' H'. destruct (_ =? _)%nat.
      - injection H' as <-. exists []. rewrite app_nil_r.
        repeat split; auto using incl_nil_l, NoDup_nil; intros ? ? [].
      - destruct (IH _ _ _ H') as (kept & E & Hi & Hn & He).
        exists kept. repeat split; auto.
        + now apply incl_tl.
        + intros Hnd. apply Hn. now inversion Hnd. }
    destruct (Qlt_bool c SENTINEL) eqn:Hlt; [|now apply Hskip].
    destruct (slot_at slots j) as [slot|e] eqn:Hslot; cbn [rbind] in H;
      [|discriminate].
    destruct (mem slot used) eqn:Hmem; cbn [negb rbind fst snd] in H;
      [now apply Hskip|].
    destruct (iloc pool i) as [r|e] eqn:Hr; cbn [rbind fst snd] in H;
      [|discriminate].
    apply iloc_inv in Hr as [Hi ->].
    destruct (Hs i j c Hc Hlt) as (slot' & p & Hj & Hp & He).
    apply slot_at_inv in Hslot. rewrite Hslot in Hj. injection Hj as <-.
    assert (Hel : eligible slot (str (get (row_dict pool i) "pos" NA)) = true)
      by now rewrite (row_dict_get pool i "pos" p Hp).
    destruct (_ =? _)%nat.
    + injection H as <-. exists [(i, slot)]. repeat split.
      * intros k [<-|[]]. now left.
      * intros _. repeat constructor. intros [].
      * intros i' s' [[= <- <-]|[]]. exact Hel.
    + destruct (IH _ _ _ H) as (kept & E & Hin & Hn & Hk).
      exists ((i, slot) :: kept). repeat split.
      * rewrite E, <- app_assoc. reflexivity.
      * intros k [<-|Hk']; [now left | right; now apply Hin].
      * intros Hnd. inversion Hnd as [|? ? Hni Hnd']; subst.
        cbn. constructor; [|now apply Hn].
        intros Hc'. apply Hni. now apply Hin.
      * intros i' s' [[= <- <-]|Hk']; [exact Hel | now apply Hk].
Qed.

Lemma NoDup_combine_fst {A B} (l : list A) (l' : list B) :
  NoDup l -> NoDup (map fst (combine l l')).
Proof.
  intros H. revert l'. induction H as [|a l Ha _ IH]; intros [|b l']; simpl;
    try constructor; auto.
  intros Hin. apply Ha. apply in_map_iff in Hin as [[a' b'] [E Hin]].
  cbn in E. subst a'. eapply in_combine_l; eauto.
Qed.

Section Hungarian.

Variable mean_of : list Q -> Q.
Variable std_of : list Q -> Q.
Variable linear_sum_assignment : matrix -> list nat * list nat.

(** The unconstrained branch gives distinct rows of the pool, each in a slot
    it is eligible for, provided the solver names no row twice. *)
Lemma hungarian_sound (slots : list string) (pool : DataFrame)
  (sel : list (string * dict)) :
  hungarian mean_of std_of linear_sum_assignment slots pool = Ok sel ->
  (forall cost,
     fill_cost mean_of std_of pool slots 0
       (full (index pool) (List.length slots) SENTINEL) = Ok cost ->
     NoDup (fst (linear_sum_assignment cost))) ->
  (exists rows, NoDup rows /\ map snd sel = map (row_dict pool) rows) /\
  (forall slot player, In (slot, player) sel ->
     eligible slot (str (get player "pos" NA)) = true).
Proof.
  unfold hungarian. intros H Hnd.
  destruct (fill_cost mean_of std_of pool slots 0 _) as [cost|e] eqn:Hc;
    cbn [rbind] in H; [|discriminate].
  specialize (Hnd cost eq_refl).
  assert (Hs : cost_sound slots pool cost).
  { eapply fill_cost_sound; [| |exact Hc]; [reflexivity|apply cost_sound_full]. }
  destruct (linear_sum_assignment cost) as [row_ind col_ind]. cbn [fst] in Hnd.
  destruct (choose_sound _ _ _ _ _ _ _ Hs H) as (kept & E & _ & Hn & He).
  cbn [app] in E. subst sel. split.
  - exists (map fst kept). split.
    + apply Hn. now apply NoDup_combine_fst.
    + now rewrite !map_map.
  - intros slot player Hin. apply in_map_iff in Hin as [[i s] [E Hin]].
    cbn in E. injection E as <- <-. now apply He.
Qed.

(** Whatever the solver returns, the unconstrained branch gives rows of the
    pool, each in a slot it is eligible for. *)
Lemma hungarian_eligible (slots : list string) (pool : DataFrame)
  (sel : list (string * dict)) :
  hungarian mean_of std_of linear_sum_assignment slots pool = Ok sel ->
  forall slot player, In (slot, player) sel ->
    (exists i, player = row_dict pool i) /\
    eligible slot (str (get player "pos" NA)) = true.
Proof.
  unfold hungarian. intros H.
  destruct (fill_cost mean_of std_of pool slots 0 _) as [cost|e] eqn:Hc;
    cbn [rbind] in H; [|discriminate].
  assert (Hs : cost_sound slots pool cost).
  { eapply fill_cost_sound; [| |exact Hc]; [reflexivity|apply cost_sound_full]. }
  destruct (linear_sum_assignment cost) as [row_ind col_ind].
  destruct (choose_sound _ _ _ _ _ _ _ Hs H) as (kept & E & _ & _ & He).
  cbn [app] in E. subst sel.
  intros slot player Hin. apply in_map_iff in Hin as [[i s] [E Hin]].
  cbn in E. injection E as <- <-. split; [now exists i | now apply He].
Qed.

End Hungarian.

(** ** The assignment read off the integer program *)

Lemma eligible_vars_sound (pool : DataFrame) (slots : list string) (i : nat)
  (rest : list string) (j0 : nat) (l : list var) :
  (forall k, nth_error rest k = nth_error slots (j0 + k)) ->
  eligible_vars pool i rest j0 = Ok l ->
  forall v, In v l ->
    fst v = i /\
    exists slot p, nth_error slots (snd v) = Some slot /\
                   loc pool i "pos" = Ok p /\ eligible slot (str p) = true.
Proof.
  revert j0 l. induction rest as [|slot rest IH]; intros j0 l Hk H v Hv;
    simpl in H.
  - injection H as <-. destruct Hv.
  - destruct (loc pool i "pos") as [p|e] eqn:Hp; cbn [rbind] in H;
      [|discriminate].
    destruct (eligible_vars pool i rest (S j0)) as [tl|e] eqn:Htl;
      cbn [rbind] in H; [|discriminate].
    injection H as <-.
    assert (Hrec : In v tl ->
      fst v = i /\
      exists slot' p', nth_error slots (snd v) = Some slot' /\
                       Ok p = Ok p' /\
                       eligible slot' (str p') = true).
    { intros Hin. apply (IH (S j0) tl); auto.
      intros k. specialize (Hk (S k)). simpl in Hk.
      now rewrite Nat.add_succ_r in Hk. }
    destruct (eligible slot (str p)) eqn:He; [|now apply Hrec].
    destruct Hv as [<-|Hv]; [|now apply Hrec].
    split; [reflexivity|]. exists slot, p. cbn [snd].
    specialize (Hk 0%nat). simpl in Hk. rewrite Nat.add_0_r in Hk. auto.
Qed.

Lemma lp_variables_sound (pool : DataFrame) (slots : list string)
  (rows : list nat) (x : list var) :
  lp_variables pool slots rows = Ok x ->
  forall v, In v x ->
    In (fst v) rows /\
    exists slot p, nth_error slots (snd v) = Some slot /\
                   loc pool (fst v) "pos" = Ok p /\
                   eligible slot (str p) = true.
Proof.
  revert x. induction rows as [|i rows IH]; intros x H v Hv; simpl in H.
  - injection H as <-. destruct Hv.
  - destruct (eligible_vars pool i slots 0) as [a|e] eqn:Ha;
      cbn [rbind] in H; [|discriminate].
    destruct (lp_variables pool slots rows) as [b|e] eqn:Hb;
      cbn [rbind] in H; [|discriminate].
    injection H as <-. apply in_app_or in Hv as [Hv|Hv].
    + destruct (eligible_vars_sound pool slots i slots 0 a
                  (fun k => eq_refl) Ha v Hv) as [E Hx].
      rewrite E. split; [now left | exact Hx].
    + destruct (IH b eq_refl v Hv) as [Hin Hx]. split; [now right | exact Hx].
Qed.

Lemma lp_problem_inv (slots : list string) (pool : DataFrame) (b : Q)
  (prob : LpProblem) :
  lp_problem slots pool b = Ok prob ->
  exists bc,
    lp_variables pool slots (seq 0 (index pool)) = Ok (variables prob) /\
    budget_constraint pool (variables prob) b = Ok bc /\
    constraints prob =
      slot_constraints slots (variables prob) ++
      player_constraints pool (variables prob) ++ bc.
Proof.
  unfold lp_problem.
  destruct (lp_variables pool slots _) as [x|e]; cbn [rbind]; [|discriminate].
  destruct (lp_objective pool x) as [obj|e]; cbn [rbind]; [|discriminate].
  destruct (budget_constraint pool x b) as [bc|e] eqn:Hbc; cbn [rbind];
    [|discriminate].
  intros [= <-]. cbn [variables constraints]. eauto.
Qed.

Lemma selection_sound (slots : list string) (pool : DataFrame) (x : list var)
  (sol : LpSolution) (sel : list (string * dict)) :
  selection slots pool x sol = Ok sel ->
  exists kept : list (nat * string),
    sel = map (fun k => (snd k, row_dict pool (fst k))) kept /\
    map fst kept = map fst (filter (selected sol) x) /\
    forall i slot, In (i, slot) kept ->
      exists j, In (i, j) x /\ nth_error slots j = Some slot.
Proof.
  revert sel. induction x as [|[i j] x IH]; intros sel H; simpl in H.
  - injection H as <-. exists []. repeat split. intros ? ? [].
  - cbn [filter]. unfold selected at 1.
    destruct (is_one (value sol (i, j))).
    + destruct (iloc pool i) as [r|e] eqn:Hr; cbn [rbind] in H; [|discriminate].
      destruct (slot_at slots j) as [slot|e] eqn:Hs; cbn [rbind] in H;
        [|discriminate].
      destruct (selection slots pool x sol) as [tl|e]; cbn [rbind] in H;
        [|discriminate].
      injection H as <-.
      apply iloc_inv in Hr as [_ ->]. apply slot_at_inv in Hs.
      destruct (IH tl eq_refl) as (kept & -> & Hk & Hin).
      exists ((i, slot) :: kept). cbn [map fst snd]. rewrite Hk.
      repeat split.
      intros i' s' [[= <- <-]|H']; [exists j; split; [now left | exact Hs]|].
      destruct (Hin i' s' H') as (j' & Hj' & Hs'). exists j'.
      split; [now right | exact Hs'].
    + destruct (IH sel H) as (kept & -> & Hk & Hin).
      exists kept. repeat split; auto.
      intros i' s' H'. destruct (Hin i' s' H') as (j' & Hj' & Hs').
      exists j'. split; [now right | exact Hs'].
Qed.

(** ** Counting the selected variables *)

Lemma Qsum_nonneg (l : list Q) : Forall (fun q => 0 <= q) l -> 0 <= Qsum l.
Proof.
  induction 1 as [|q l Hq _ IH]; simpl; [apply Qle_refl | lra].
Qed.

Lemma selected_value (sol : LpSolution) (v : var) :
  selected sol v = true -> value_of sol v == 1.
Proof.
  unfold selected, is_one, value_of. destruct (value sol v) as [q|];
    [apply Qeq_bool_eq | discriminate].
Qed.

Lemma selected_count_le (sol : LpSolution) (l : list var) :
  nonneg sol l ->
  Qofnat (List.length (filter (selected sol) l)) <= Qsum (map (value_of sol) l).
Proof.
  unfold Qofnat. induction l as [|v l IH]; intros Hn.
  - apply Qle_refl.
  - assert (IH' : inject_Z (Z.of_nat (List.length (filter (selected sol) l)))
                  <= Qsum (map (value_of sol) l))
      by (apply IH; intros u Hu; apply Hn; now right).
    assert (Hv : 0 <= value_of sol v) by (apply Hn; now left).
    cbn [filter map Qsum fold_right].
    destruct (selected sol v) eqn:Hs.
    + apply selected_value in Hs. cbn [List.length].
      rewrite Nat2Z.inj_succ, <- Z.add_1_r, inject_Z_plus.
      change (fold_right Qplus 0 (map (value_of sol) l))
        with (Qsum (map (value_of sol) l)).
      rewrite Hs. change (inject_Z 1) with 1. lra.
    + change (fold_right Qplus 0 (map (value_of sol) l))
        with (Qsum (map (value_of sol) l)). lra.
Qed.

Lemma lhs_lp_sum (sol : LpSolution) (keep : var -> bool) (x : list var) :
  lhs sol (lp_sum keep x) == Qsum (map (value_of sol) (filter keep x)).
Proof.
  unfold lhs, lp_sum, Qsum. induction (filter keep x) as [|v l IH];
    cbn [map fold_right fst snd]; [reflexivity|].
  rewrite IH. ring.
Qed.

Lemma count_occ_rows (sol : LpSolution) (x : list var) (i : nat) :
  count_occ Nat.eq_dec (map fst (filter (selected sol) x)) i =
  List.length (filter (selected sol) (filter (fun v => (fst v =? i)%nat) x)).
Proof.
  induction x as [|[a b] x IH]; [reflexivity|].
  cbn [filter fst]. destruct (Nat.eqb_spec a i) as [->|Hne].
  - cbn [filter]. destruct (selected sol (i, b)); [|exact IH].
    cbn [map fst List.length]. rewrite count_occ_cons_eq by reflexivity.
    now rewrite IH.
  - destruct (selected sol (a, b)); [|exact IH].
    cbn [map fst]. rewrite count_occ_cons_neq by exact Hne. exact IH.
Qed.

Lemma filter_none {A} (f : A -> bool) (l : list A) :
  (forall a, In a l -> f a = false) -> filter f l = [].
Proof.
  induction l as [|a l IH]; intros H; [reflexivity|].
  cbn. rewrite H by (now left). apply IH. intros b Hb. apply H. now right.
Qed.

(** A solution within the lower bound that satisfies the per-player
    constraints selects no row twice. *)
Lemma selected_rows_NoDup (pool : DataFrame) (sol : LpSolution) (x : list var) :
  (forall v, In v x -> (fst v < index pool)%nat) ->
  nonneg sol x ->
  Forall (holds sol) (player_constraints pool x) ->
  NoDup (map fst (filter (selected sol) x)).
Proof.
  intros Hx Hn Hc. apply (NoDup_count_occ Nat.eq_dec). intros i.
  rewrite count_occ_rows.
  destruct (Nat.lt_ge_cases i (index pool)) as [Hi|Hi].
  - rewrite Forall_forall in Hc.
    assert (Hh : holds sol (mkConstraint (lp_sum (fun v => (fst v =? i)%nat) x) LE 1)).
    { apply Hc. unfold player_constraints.
      apply in_map_iff. exists i. split; [reflexivity|]. apply in_seq. lia. }
    unfold holds in Hh. cbn [rel terms rhs] in Hh. rewrite lhs_lp_sum in Hh.
    assert (Hle : Qofnat (List.length
                    (filter (selected sol) (filter (fun v => (fst v =? i)%nat) x)))
                  <= 1).
    { eapply Qle_trans; [apply selected_count_le|exact Hh].
      intros v Hv. apply Hn. now apply filter_In in Hv as [Hv _]. }
    unfold Qofnat in Hle. change 1 with (inject_Z 1) in Hle.
    rewrite <- Zle_Qle in Hle. lia.
  - rewrite (filter_none (fun v => (fst v =? i)%nat)); [cbn; lia|].
    intros v Hv. apply Nat.eqb_neq. specialize (Hx v Hv). lia.
Qed.

Section IntegerProgram.

Variable solve : LpProblem -> option LpSolution.

(** The integer-programming branch gives rows of the pool in slots they are
    eligible for, and distinct rows when the solution respects the lower
    bound and the per-player constraints. *)
Lemma ilp_sound (slots : list string) (pool : DataFrame) (b : Q)
  (sel : list (string * dict)) :
  ilp solve slots pool b = Ok sel ->
  (forall prob sol,
     lp_problem slots pool b = Ok prob -> solve prob = Some sol ->
     nonneg sol (variables prob) /\
     Forall (holds sol) (player_constraints pool (variables prob))) ->
  (exists rows, NoDup rows /\ map snd sel = map (row_dict pool) rows) /\
  (forall slot player, In (slot, player) sel ->
     eligible slot (str (get player "pos" NA)) = true).
Proof.
  unfold ilp. intros H Hsol.
  destruct (lp_problem slots pool b) as [prob|e] eqn:Hp; cbn [rbind] in H;
    [|discriminate].
  destruct (solve prob) as [sol|] eqn:Hs; [|discriminate].
  destruct (Hsol prob sol eq_refl Hs) as [Hn Hc].
  destruct (lp_problem_inv slots pool b prob Hp) as (bc & Hx & _ & _).
  pose proof (lp_variables_sound pool slots _ _ Hx) as Hv.
  destruct (selection_sound slots pool _ sol sel H) as (kept & -> & Hk & Hin).
  split.
  - exists (map fst kept). split; [|now rewrite !map_map].
    rewrite Hk. apply (selected_rows_NoDup pool); auto.
    intros v Hv'. destruct (Hv v Hv') as [Hr _]. apply in_seq in Hr. lia.
  - intros slot player Hsp. apply in_map_iff in Hsp as [[i s] [E Hi]].
    cbn in E. injection E as <- <-.
    destruct (Hin i s Hi) as (j & Hj & Hs').
    destruct (Hv (i, j) Hj) as [_ (slot' & p & Hslot & Hp' & He)].
    cbn [fst snd] in *. rewrite Hs' in Hslot. injection Hslot as <-.
    now rewrite (row_dict_get pool i "pos" p Hp').
Qed.

(** Whatever values the solver leaves, the integer-programming branch gives
    rows of the pool, each in a slot it is eligible for: there are variables
    for the eligible pairs only. *)
Lemma ilp_eligible (slots : list string) (pool : DataFrame) (b : Q)
  (sel : list (string * dict)) :
  ilp solve slots pool b = Ok sel ->
  forall slot player, In (slot, player) sel ->
    (exists i, player = row_dict pool i) /\
    eligible slot (str (get player "pos" NA)) = true.
Proof.
  unfold ilp. intros H.
  destruct (lp_problem slots pool b) as [prob|e] eqn:Hp; cbn [rbind] in H;
    [|discriminate].
  destruct (solve prob) as [sol|] eqn:Hs; [|discriminate].
  destruct (lp_problem_inv slots pool b prob Hp) as (bc & Hx & _ & _).
  pose proof (lp_variables_sound pool slots _ _ Hx) as Hv.
  destruct (selection_sound slots pool _ sol sel H) as (kept & -> & _ & Hin).
  intros slot player Hsp. apply in_map_iff in Hsp as [[i s] [E Hi]].
  cbn in E. injection E as <- <-. split; [now exists i|].
  destruct (Hin i s Hi) as (j & Hj & Hs').
  destruct (Hv (i, j) Hj) as [_ (slot' & p & Hslot & Hp' & He)].
  cbn [fst snd] in *. rewrite Hs' in Hslot. injection Hslot as <-.
  now rewrite (row_dict_get pool i "pos" p Hp').
Qed.

End IntegerProgram.

(** ** The budget *)

Lemma Qsum_elem_le (l : list Q) (q : Q) :
  Forall (fun a => 0 <= a) l -> In q l -> q <= Qsum l.
Proof.
  induction 1 as [|a l Ha Hl IH]; intros Hin; [destruct Hin|].
  pose proof (Qsum_nonneg l Hl) as Hs. cbn [Qsum fold_right].
  change (fold_right Qplus 0 l) with (Qsum l).
  destruct Hin as [->|Hin]; [lra | specialize (IH Hin); lra].
Qed.

Lemma Qofnat_succ (n : nat) : Qofnat (S n) == Qofnat n + 1.
Proof.
  unfold Qofnat. rewrite Nat2Z.inj_succ, <- Z.add_1_r, inject_Z_plus.
  reflexivity.
Qed.

Lemma Qofnat_nonneg (n : nat) : 0 <= Qofnat n.
Proof.
  unfold Qofnat. change 0 with (inject_Z 0). rewrite <- Zle_Qle. lia.
Qed.

Lemma Qsum_bounded {A} (f : A -> Q) (l : list A) (V : Q) :
  (forall a, In a l -> f a <= V) ->
  Qsum (map f l) <= Qofnat (List.length l) * V.
Proof.
  induction l as [|a l IH]; intros H.
  - change (0 <= 0 * V). lra.
  - cbn [map Qsum fold_right List.length].
    change (fold_right Qplus 0 (map f l)) with (Qsum (map f l)).
    rewrite Qofnat_succ.
    assert (Ha : f a <= V) by (apply H; now left).
    assert (Hl : Qsum (map f l) <= Qofnat (List.length l) * V)
      by (apply IH; intros c Hc; apply H; now right).
    lra.
Qed.

Lemma lhs_app (sol : LpSolution) (a b : list (Q * var)) :
  lhs sol (a ++ b) == lhs sol a + lhs sol b.
Proof.
  unfold lhs, Qsum. induction a as [|t a IH]; cbn [app map fold_right].
  - ring.
  - rewrite IH. ring.
Qed.

Lemma lhs_scaled (sol : LpSolution) (q : Q) (x : list var) :
  lhs sol (map (fun t => (q * fst t, snd t)) (lp_sum (fun _ => true) x))
  == q * Qsum (map (value_of sol) x).
Proof.
  unfold lhs, lp_sum, Qsum. induction x as [|v x IH];
    cbn [filter map fold_right fst snd].
  - ring.
  - rewrite IH. ring.
Qed.

Lemma coefficient_inv (c : cell) (q : Q) : coefficient c = Ok q -> c = Num q.
Proof. destruct c; cbn; try discriminate. now intros [= <-]. Qed.

(** The market value of row [i], 0 when unknown. *)
Lemma market_value_loc (pool : DataFrame) (i : nat) (c : cell) :
  loc pool i "market_value_mil" = Ok c ->
  market_value (row_dict pool i) = match c with Num q => q | _ => 0 end.
Proof.
  intros H. unfold market_value. now rewrite (row_dict_get _ _ _ _ H).
Qed.

(** The budget constraint as posted: the market value of the whole pool times
    the number of variables set. *)
Lemma budget_terms_lhs (pool : DataFrame) (sol : LpSolution) (x : list var)
  (rows : list nat) (ts : list (Q * var)) :
  budget_terms pool x rows = Ok ts ->
  lhs sol ts ==
  Qsum (map (fun i => market_value (row_dict pool i)) rows)
  * Qsum (map (value_of sol) x).
Proof.
  revert ts. induction rows as [|i rows IH]; intros ts H; simpl in H.
  - injection H as <-. cbn. ring.
  - destruct (loc pool i "market_value_mil") as [c|e] eqn:Hc;
      cbn [rbind] in H; [|discriminate].
    destruct (coefficient c) as [q|e] eqn:Hq; cbn [rbind] in H; [|discriminate].
    destruct (budget_terms pool x rows) as [tl|e]; cbn [rbind] in H;
      [|discriminate].
    injection H as <-.
    rewrite lhs_app, lhs_scaled, (IH tl eq_refl).
    cbn [map Qsum fold_right].
    change (fold_right Qplus 0 (map (fun i => market_value (row_dict pool i)) rows))
      with (Qsum (map (fun i => market_value (row_dict pool i)) rows)).
    apply coefficient_inv in Hq. subst c.
    rewrite (market_value_loc pool i _ Hc). ring.
Qed.

Lemma any_notna_false (s : Series) (i : nat) :
  any_notna s = false -> nth i s NA = NA.
Proof.
  unfold any_notna. revert i. induction s as [|c s IH]; intros i H.
  - now destruct i.
  - cbn in H. apply orb_false_elim in H as [Hc Hs].
    destruct i; [destruct c; try discriminate; reflexivity | now apply IH].
Qed.

Lemma selection_total (slots : list string) (pool : DataFrame) (x : list var)
  (sol : LpSolution) :
  (forall v, In v x ->
     (fst v < index pool)%nat /\ exists slot, nth_error slots (snd v) = Some slot) ->
  exists sel, selection slots pool x sol = Ok sel.
Proof.
  induction x as [|[i j] x IH]; intros H; simpl; [eauto|].
  destruct IH as [tl Htl]; [intros v Hv; apply H; now right|].
  rewrite Htl. destruct (is_one _); [|eauto].
  destruct (H (i, j)) as [Hi [slot Hs]]; [now left|]. cbn [fst snd] in *.
  unfold iloc, slot_at. apply Nat.ltb_lt in Hi. rewrite Hi, Hs. cbn. eauto.
Qed.

Lemma market_value_bound (pool : DataFrame) (sol : LpSolution) (x : list var)
  (b : Q) (bc : list LpConstraint) :
  budget_constraint pool x b = Ok bc ->
  Forall (holds sol) bc ->
  (forall i, (i < index pool)%nat -> 0 <= market_value (row_dict pool i)) ->
  0 <= b ->
  exists V, 0 <= V /\
    (forall i, (i < index pool)%nat -> market_value (row_dict pool i) <= V) /\
    V * Qsum (map (value_of sol) x) <= b.
Proof.
  intros Hbc Hh Hmv Hb. unfold budget_constraint in Hbc.
  destruct (lookup "market_value_mil" (columns pool)) as [s|] eqn:Hl.
  - destruct (any_notna s) eqn:Ha.
    + destruct (budget_terms pool x (seq 0 (index pool))) as [ts|e] eqn:Ht;
        cbn [rbind] in Hbc; [|discriminate].
      injection Hbc as <-. inversion Hh as [|c l Hc _]; subst.
      unfold holds in Hc. cbn [rel terms rhs] in Hc.
      rewrite (budget_terms_lhs pool sol x _ ts Ht) in Hc.
      assert (Hall : Forall (fun a => 0 <= a)
                (map (fun i => market_value (row_dict pool i)) (seq 0 (index pool)))).
      { apply Forall_map, Forall_forall. intros i Hi. apply Hmv.
        apply in_seq in Hi. lia. }
      eexists. split; [apply (Qsum_nonneg _ Hall)|]. split; [|exact Hc].
      intros i Hi. apply (Qsum_elem_le _ _ Hall).
      apply in_map_iff. exists i. split; [reflexivity|]. apply in_seq. lia.
    + exists 0. split; [apply Qle_refl|]. split; [|lra].
      intros i _. rewrite (market_value_loc pool i NA); [apply Qle_refl|].
      unfold loc, getitem. rewrite Hl. cbn. now rewrite any_notna_false.
  - exists 0. split; [apply Qle_refl|]. split; [|lra].
    intros i _. unfold market_value, get. rewrite lookup_row_dict, Hl.
    apply Qle_refl.
Qed.

Section Budget.

Variable mean_of : list Q -> Q.
Variable std_of : list Q -> Q.
Variable linear_sum_assignment : matrix -> list nat * list nat.
Variable solve : LpProblem -> option LpSolution.

(** C2, amended. When the integer-programming branch runs to its end and the
    values the solver leaves respect the lower bound of the variables and the
    budget constraint as posted, the market value of the assignment is within
    the budget. *)
Theorem optimize_xi_within_budget (formation : string) (slots : list string)
  (pool : DataFrame) (b : Q) (prob : LpProblem) (sol : LpSolution) :
  lookup formation FORMATIONS = Some slots ->
  lp_problem slots pool b = Ok prob ->
  solve prob = Some sol ->
  nonneg sol (variables prob) ->
  (forall bc, budget_constraint pool (variables prob) b = Ok bc ->
              Forall (holds sol) bc) ->
  (forall i, (i < index pool)%nat -> 0 <= market_value (row_dict pool i)) ->
  0 <= b ->
  exists sel,
    optimize_xi mean_of std_of linear_sum_assignment solve formation pool (Some b) = Ok sel /\
    total_value sel <= b.
Proof.
  intros Hf Hp Hs Hn Hb Hmv H0.
  destruct (lp_problem_inv slots pool b prob Hp) as (bc & Hx & Hbc & _).
  pose proof (lp_variables_sound pool slots _ _ Hx) as Hv.
  destruct (selection_total slots pool (variables prob) sol) as [sel Hsel].
  { intros v Hv'. destruct (Hv v Hv') as [Hr (slot & p & Hslot & _)].
    apply in_seq in Hr. split; [lia | eauto]. }
  exists sel. split.
  { unfold optimize_xi, ilp. rewrite Hf, Hp. cbn [rbind]. now rewrite Hs, Hsel. }
  destruct (selection_sound slots pool _ sol sel Hsel) as (kept & -> & Hk & _).
  unfold total_value. rewrite map_map. cbn [snd].
  rewrite <- (map_map fst (fun i => market_value (row_dict pool i))), Hk.
  destruct (market_value_bound pool sol (variables prob) b bc Hbc (Hb bc Hbc) Hmv H0)
    as (V & HV0 & HV & HVT).
  eapply Qle_trans; [apply (Qsum_bounded _ _ V)|].
  { intros i Hi. apply HV. apply in_map_iff in Hi as (v & <- & Hv').
    apply filter_In in Hv' as [Hv' _].
    destruct (Hv v Hv') as [Hr _]. apply in_seq in Hr. lia. }
  rewrite length_map.
  eapply Qle_trans; [apply Qmult_le_compat_r; [apply selected_count_le; exact Hn | exact HV0]|].
  now rewrite Qmult_comm.
Qed.

End Budget.

(** C2, the counterexample: one striker worth 50, no [score] column, budget 0.
    The integer-programming branch raises on the missing column, the
    unconstrained branch picks the striker, and 50 is over the budget. *)
Lemma optimize_xi_over_budget :
  ilp all_ones ["GK";"LB";"LCB";"RCB";"RB";"LCM";"CM";"RCM";"LW";"ST";"RW"]
      priced_striker 0 = Raise (KeyError "score") /\
  exists sel,
    optimize_xi nanmean nanstd assignment_by_search all_ones "4-3-3"
      priced_striker (Some 0) = Ok sel /\
    map fst sel = ["ST"] /\
    total_value sel == 50 /\
    ~ total_value sel <= 0.
Proof.
  split; [reflexivity|].
  eexists. split; [vm_compute; reflexivity|].
  split; [reflexivity|]. split; [reflexivity|].
  intros H. vm_compute in H. apply H. reflexivity.
Qed.

(** ** The status of the solver *)

Section Status.

Variable mean_of : list Q -> Q.
Variable std_of : list Q -> Q.
Variable linear_sum_assignment : matrix -> list nat * list nat.
Variable solve : LpProblem -> option LpSolution.

(** Once the solver has returned, [optimize_xi] returns what it reads off the
    values of the variables, whatever the status. *)
Lemma optimize_xi_reads_values (formation : string) (slots : list string)
  (pool : DataFrame) (b : Q) (prob : LpProblem) (sol : LpSolution)
  (sel : list (string * dict)) :
  lookup formation FORMATIONS = Some slots ->
  lp_problem slots pool b = Ok prob ->
  solve prob = Some sol ->
  selection slots pool (variables prob) sol = Ok sel ->
  optimize_xi mean_of std_of linear_sum_assignment solve formation pool (Some b) = Ok sel.
Proof.
  intros Hf Hp Hs Hsel. unfold optimize_xi, ilp.
  rewrite Hf, Hp. cbn [rbind]. now rewrite Hs, Hsel.
Qed.

End Status.

(** C3, evaluated: one striker with a [score] column, formation 4-3-3, budget
    100.  The program asks for one player in each of eleven slots and has one
    variable, so no values satisfy it; a solver that reports this in its
    status and leaves the variable at 0 makes [optimize_xi] return the empty
    assignment, while the unconstrained branch has the striker at ST. *)
Theorem optimize_xi_infeasible_without_fallback :
  (exists prob,
     lp_problem ["GK";"LB";"LCB";"RCB";"RB";"LCM";"CM";"RCM";"LW";"ST";"RW"]
       priced_striker_scored 100 = Ok prob /\
     variables prob = [(0, 9)%nat] /\
     forall sol, ~ Forall (holds sol) (constraints prob)) /\
  optimize_xi nanmean nanstd assignment_by_search reports_infeasible "4-3-3"
    priced_striker_scored (Some 100) = Ok [] /\
  exists sel,
    hungarian nanmean nanstd assignment_by_search
      ["GK";"LB";"LCB";"RCB";"RB";"LCM";"CM";"RCM";"LW";"ST";"RW"]
      priced_striker_scored = Ok sel /\
    map fst sel = ["ST"].
Proof.
  split; [|split].
  - eexists. split; [vm_compute; reflexivity|]. split; [reflexivity|].
    intros sol H. inversion H as [|c l Hc Hl]; subst.
    vm_compute in Hc. discriminate.
  - vm_compute. reflexivity.
  - eexists. split; [vm_compute; reflexivity | reflexivity].
Qed.


(** ** The optimiser on sample pools *)

Example optimize_xi_example_scenario :
  exists a,
    optimize_xi nanmean nanstd assignment_by_search no_solver "4-3-3"
      two_strikers None = Ok [("ST", a)] /\
    get a "name" NA = Str "A".
Proof. eexists. split; [vm_compute; reflexivity | reflexivity]. Qed.

Example optimize_xi_empty_pool :
  optimize_xi nanmean nanstd assignment_by_search no_solver "4-4-2"
    (pool_of []) None = Ok [].
Proof.
  apply (optimize_xi_no_candidates nanmean nanstd assignment_by_search
           no_solver "4-4-2"
           ["GK";"LB";"LCB";"RCB";"RB";"LM";"LCM";"RCM";"RM";"LS";"RS"]).
  - reflexivity.
  - each_metric; reflexivity.
  - now apply empty_pool_no_candidates.
  - unfold in_range. vm_compute. constructor.
Qed.

Lemma optimize_xi_empty_assignment_witness :
  optimize_xi nanmean nanstd assignment_by_search all_ones "4-3-3"
    one_sweeper (Some 10) = Ok [].
Proof.
  apply (optimize_xi_empty_assignment nanmean nanstd assignment_by_search
           all_ones "4-3-3" SLOTS_433 one_sweeper (Some 10)).
  - reflexivity.
  - each_metric; reflexivity.
  - right. intros i slot Hi Hin.
    assert (i = 0)%nat by (cbn in Hi; lia). subst i.
    exists (Str "SW"). split; [reflexivity|].
    cbn in Hin.
    repeat (destruct Hin as [<-|Hin]; [reflexivity|]). destruct Hin.
  - unfold in_range. vm_compute. repeat constructor.
Defined.

Lemma optimize_xi_without_score_witness :
  optimize_xi nanmean nanstd assignment_by_search all_ones "4-3-3"
    two_strikers (Some 0)
    = hungarian nanmean nanstd assignment_by_search SLOTS_433 two_strikers /\
  optimize_xi nanmean nanstd assignment_by_search all_ones "4-3-3"
    two_strikers (Some 0)
    = optimize_xi nanmean nanstd assignment_by_search all_ones "4-3-3"
        two_strikers None /\
  ((exists e, ilp all_ones SLOTS_433 two_strikers 0 = Raise e) \/
   (no_candidates SLOTS_433 two_strikers /\
    hungarian nanmean nanstd assignment_by_search SLOTS_433 two_strikers = Ok [])).
Proof.
  apply (optimize_xi_without_score_ignores_budget nanmean nanstd
           assignment_by_search all_ones "4-3-3" SLOTS_433 two_strikers 0).
  - reflexivity.
  - reflexivity.
  - each_metric; reflexivity.
  - unfold in_range. vm_compute. repeat constructor.
Defined.

Lemma optimize_xi_within_budget_witness :
  exists sel,
    optimize_xi nanmean nanstd assignment_by_search all_ones "4-3-3"
      priced_striker_scored (Some 100) = Ok sel /\
    total_value sel <= 100.
Proof.
  eapply (optimize_xi_within_budget nanmean nanstd assignment_by_search
            all_ones "4-3-3" SLOTS_433 priced_striker_scored 100).
  - reflexivity.
  - vm_compute. reflexivity.
  - reflexivity.
  - intros v _. vm_compute. discriminate.
  - intros bc Hbc. vm_compute in Hbc. injection Hbc as <-.
    repeat constructor. vm_compute. discriminate.
  - intros i Hi. assert (i = 0)%nat by (cbn in Hi; lia). subst i.
    vm_compute. discriminate.
  - vm_compute. discriminate.
Defined.

(** * Further properties of the module *)

(** ** Slot presets *)

(** X1. Whatever the slot, the preset of [slot_weights] gives each of the four
    metrics a weight that is not negative, and the four weights sum to 1. *)
Theorem slot_weights_sum_to_one (slot : string) :
  (forall m, In m METRICS ->
     exists q, lookup m (slot_weights slot) = Some q /\ 0 <= q) /\
  weight (slot_weights slot) "minutes" + weight (slot_weights slot) "goals"
  + weight (slot_weights slot) "assists" + weight (slot_weights slot) "xG" == 1.
Proof.
  unfold slot_weights.
  destruct (mem (upper slot) ["ST";"LS";"RS";"CF";"LW";"RW";"LAM";"RAM"]);
    [|destruct (mem (upper slot)
                 ["CAM";"CM";"LCM";"RCM";"CDM";"LDM";"RDM";"LM";"RM"]);
      [|destruct (mem (upper slot) ["LB";"RB";"LCB";"RCB"]);
        [|destruct (String.eqb (upper slot) "GK")]]];
    (split; [each_metric; eexists; (split; [reflexivity | discriminate])
            | reflexivity]).
Qed.

(** ** z-scores *)


Section ZScore.

Variable mean_of : list Q -> Q.
Variable std_of : list Q -> Q.


End ZScore.

(** ** What [score_players] returns and when it raises *)

Section ScorePlayersResult.

Variable mean_of : list Q -> Q.
Variable std_of : list Q -> Q.

(** X4. The table [score_players] returns has the rows of the pool and every
    column of the pool as it was, apart from the five it writes
    ([z_minutes], [z_goals], [z_assists], [z_xG], [score]), which it has. *)
Theorem score_players_keeps_columns (h h' : heap) (df out : ref)
  (pool : DataFrame) (w : list (string * Q)) :
  nth_error h df = Some pool ->
  score_players mean_of std_of df w h = (Ok out, h') ->
  exists d',
    nth_error h' out = Some d' /\
    index d' = index pool /\
    (forall c, mem c ["z_minutes"; "z_goals"; "z_assists"; "z_xG"; "score"] = false ->
               getitem d' c = getitem pool c) /\
    (forall c, mem c ["z_minutes"; "z_goals"; "z_assists"; "z_xG"; "score"] = true ->
               has_column d' c = true).
Proof.
  intros Hd Hrun.
  rewrite (score_players_run mean_of std_of h df w pool Hd) in Hrun.
  destruct (score_columns mean_of std_of w pool) as [[u|e] d1] eqn:E;
    cbn [fst snd] in Hrun; [|discriminate].
  injection Hrun as <- <-.
  destruct (score_columns_ok_inv mean_of std_of w pool u)
    as (cmin & cg & ca & cx & H1 & H2 & H3 & H4); [now rewrite E|].
  rewrite (score_columns_run mean_of std_of w pool _ _ _ _ H1 H2 H3 H4) in E.
  injection E as _ <-.
  eexists. split; [apply nth_error_app_length|]. split; [reflexivity|]. split.
  - intros c Hc. cbn in Hc. rewrite !orb_false_r in Hc.
    repeat (apply orb_false_elim in Hc; destruct Hc as [? Hc]).
    unfold with_z. now rewrite !getitem_setitem_ne.
  - intros c Hc. cbn in Hc. rewrite !orb_false_r in Hc.
    unfold has_column, with_z, setitem. cbn [columns].
    repeat (apply orb_true_iff in Hc; destruct Hc as [Hc|Hc];
            [apply String.eqb_eq in Hc; subst c;
             repeat first [ rewrite lookup_assign_eq; reflexivity
                          | rewrite lookup_assign_ne by reflexivity ] |]).
    apply String.eqb_eq in Hc. subst c. now rewrite lookup_assign_eq.
Qed.

(** X5. [score_players] raises [KeyError] for the first of [minutes],
    [goals], [assists], [xG] the pool lacks, and returns a table when the pool
    has the four. *)
Theorem score_players_raises_on_missing_metric (h : heap) (df : ref)
  (pool : DataFrame) (w : list (string * Q)) :
  nth_error h df = Some pool ->
  fst (score_players mean_of std_of df w h) =
  match find (fun m => negb (has_column pool m)) METRICS with
  | Some m => Raise (KeyError m)
  | None => Ok (List.length h)
  end.
Proof.
  intros Hd. rewrite (score_players_run mean_of std_of h df w pool Hd). cbn [fst].
  unfold score_columns, METRICS, for_each, bind, col, set, ret, find.
  cbn [append].
  unfold has_column, getitem at 1.
  destruct (lookup "minutes" (columns pool)) as [cmin|] eqn:Hmin;
    cbn [negb fst]; [|reflexivity].
  rewrite getitem_setitem_ne by reflexivity. unfold getitem at 1.
  destruct (lookup "goals" (columns pool)) as [cg|] eqn:Hg;
    cbn [negb fst]; [|reflexivity].
  rewrite !getitem_setitem_ne by reflexivity. unfold getitem at 1.
  destruct (lookup "assists" (columns pool)) as [ca|] eqn:Ha;
    cbn [negb fst]; [|reflexivity].
  rewrite !getitem_setitem_ne by reflexivity. unfold getitem at 1.
  destruct (lookup "xG" (columns pool)) as [cx|] eqn:Hx;
    cbn [negb fst]; [|reflexivity].
  rewrite !getitem_setitem_ne, getitem_setitem_eq by reflexivity.
  rewrite !getitem_setitem_ne, getitem_setitem_eq by reflexivity.
  rewrite !getitem_setitem_ne, getitem_setitem_eq by reflexivity.
  rewrite getitem_setitem_eq. reflexivity.
Qed.

End ScorePlayersResult.

(** ** Slots of the unconstrained assignment *)

Lemma mem_false (k : string) (l : list string) : mem k l = false -> ~ In k l.
Proof.
  unfold mem. intros H Hin.
  assert (Ht : existsb (String.eqb k) l = true)
    by (apply existsb_exists; exists k; split; [exact Hin | apply String.eqb_refl]).
  congruence.
Qed.

Lemma choose_slots (cost : matrix) (slots : list string) (pool : DataFrame)
  (pairs : list (nat * nat)) (chosen : list (string * dict))
  (used : list string) (sel : list (string * dict)) :
  (forall s, In s (map fst chosen) -> In s used) ->
  NoDup (map fst chosen) ->
  incl (map fst chosen) slots ->
  choose cost slots pool pairs chosen used = Ok sel ->
  NoDup (map fst sel) /\ incl (map fst sel) slots.
Proof.
  revert chosen used sel.
  induction pairs as [|[i j] rest IH]; intros chosen used sel Hu Hn Hi H;
    simpl in H.
  - injection H as <-. auto.
  - destruct (cost_at cost i j) as [c|e]; cbn [rbind] in H; [|discriminate].
    assert (Hskip :
      (if (List.length used =? List.length slots)%nat then Ok chosen
       else choose cost slots pool rest chosen used) = Ok sel ->
      NoDup (map fst sel) /\ incl (map fst sel) slots).
    { destruct (_ =? _)%nat; [intros [= <-]; auto | now apply IH]. }
    destruct (Qlt_bool c SENTINEL); [|now apply Hskip].
    destruct (slot_at slots j) as [slot|e] eqn:Hslot; cbn [rbind] in H;
      [|discriminate].
    destruct (mem slot used) eqn:Hmem; cbn [negb rbind fst snd] in H;
      [now apply Hskip|].
    destruct (iloc pool i) as [r|e]; cbn [rbind fst snd] in H; [|discriminate].
    apply mem_false in Hmem. apply slot_at_inv, nth_error_In in Hslot.
    assert (Hn' : NoDup (map fst (chosen ++ [(slot, r)]))).
    { rewrite map_app. cbn [map fst]. apply NoDup_app; auto.
      - repeat constructor. intros [].
      - intros s Hs [<-|[]]. apply Hmem. now apply Hu. }
    assert (Hi' : incl (map fst (chosen ++ [(slot, r)])) slots).
    { rewrite map_app. apply incl_app; [exact Hi|].
      intros s [<-|[]]. exact Hslot. }
    destruct (_ =? _)%nat; [injection H as <-; auto|].
    refine (IH _ _ _ _ Hn' Hi' H).
    intros s Hs. rewrite map_app in Hs. apply in_app_or in Hs as [Hs|[<-|[]]];
      [right; now apply Hu | now left].
Qed.

Section UnconstrainedSlots.

Variable mean_of : list Q -> Q.
Variable std_of : list Q -> Q.
Variable linear_sum_assignment : matrix -> list nat * list nat.
Variable solve : LpProblem -> option LpSolution.

(** X6. Without a budget, whatever pairs the assignment solver returns, the
    assignment [optimize_xi] returns names no slot twice, names slots of the
    formation only, and has no more entries than the formation has slots. *)
Theorem optimize_xi_unconstrained_slots_distinct (formation : string)
  (slots : list string) (pool : DataFrame) (sel : list (string * dict)) :
  lookup formation FORMATIONS = Some slots ->
  optimize_xi mean_of std_of linear_sum_assignment solve formation pool None = Ok sel ->
  NoDup (map fst sel) /\ incl (map fst sel) slots /\
  (List.length sel <= List.length slots)%nat.
Proof.
  intros Hf H. unfold optimize_xi in H. rewrite Hf in H. unfold hungarian in H.
  destruct (fill_cost mean_of std_of pool slots 0 _) as [cost|e]; cbn [rbind] in H;
    [|discriminate].
  destruct (linear_sum_assignment cost) as [row_ind col_ind].
  destruct (choose_slots cost slots pool (combine row_ind col_ind) [] [] sel)
    as [Hn Hi]; try exact H.
  - intros s [].
  - constructor.
  - intros s [].
  - split; [exact Hn|]. split; [exact Hi|].
    rewrite <- (length_map fst sel). now apply NoDup_incl_length.
Qed.

End UnconstrainedSlots.

(** ** The comparator, the other way round *)

(** X7. Comparing two squads in the other order swaps the two columns and
    changes the sign of every difference; a difference that is NaN stays
    NaN. *)
Theorem compare_squads_swap (mean_of : list Q -> Q) (a b : Squad) :
  slots a <> [] -> slots b <> [] ->
  exists rab rba,
    compare_squads mean_of a b = Ok rab /\ compare_squads mean_of b a = Ok rba /\
    Forall2 (fun x y => metric x = metric y /\
                        squad_a x = squad_b y /\ squad_b x = squad_a y /\
                        float_eq (delta y) (nan_opp (delta x)))
            rab rba.
Proof.
  intros Ha Hb. unfold compare_squads.
  rewrite (agg_to_dataframe mean_of a Ha), (agg_to_dataframe mean_of b Hb).
  cbn [rbind combine map fst snd].
  eexists _, _. split; [reflexivity|]. split; [reflexivity|].
  repeat constructor; cbn [delta nan_op nan_opp float_eq]; try ring.
  destruct (mean mean_of (ages a)), (mean mean_of (ages b));
    cbn [delta nan_op nan_opp float_eq]; try ring; exact I.
Qed.

Lemma compare_squads_swap_witness :
  exists rab rba,
    compare_squads nanmean empty_433 empty_433 = Ok rab /\
    compare_squads nanmean empty_433 empty_433 = Ok rba /\
    Forall2 (fun x y => metric x = metric y /\
                        squad_a x = squad_b y /\ squad_b x = squad_a y /\
                        float_eq (delta y) (nan_opp (delta x)))
            rab rba.
Proof. apply (compare_squads_swap nanmean empty_433 empty_433); discriminate. Defined.

(** ** The further properties on sample data *)

Lemma score_players_keeps_columns_witness :
  exists d',
    nth_error (snd (score_players nanmean nanstd 0%nat [] [two_strikers])) 1%nat
      = Some d' /\
    index d' = index two_strikers /\
    (forall c, mem c ["z_minutes"; "z_goals"; "z_assists"; "z_xG"; "score"] = false ->
               getitem d' c = getitem two_strikers c) /\
    (forall c, mem c ["z_minutes"; "z_goals"; "z_assists"; "z_xG"; "score"] = true ->
               has_column d' c = true).
Proof.
  apply (score_players_keeps_columns nanmean nanstd [two_strikers] _ 0%nat 1%nat
           two_strikers []).
  - reflexivity.
  - vm_compute. reflexivity.
Defined.

Lemma score_players_raises_on_missing_metric_witness :
  fst (score_players nanmean nanstd 0%nat [] [no_goals]) = Raise (KeyError "goals").
Proof.
  apply (score_players_raises_on_missing_metric nanmean nanstd [no_goals] 0%nat
           no_goals []).
  reflexivity.
Defined.

Lemma optimize_xi_unconstrained_slots_distinct_witness :
  exists sel,
    optimize_xi nanmean nanstd assignment_by_search no_solver "4-4-2"
      two_strikers None = Ok sel /\
    NoDup (map fst sel) /\
    incl (map fst sel)
         ["GK";"LB";"LCB";"RCB";"RB";"LM";"LCM";"RCM";"RM";"LS";"RS"] /\
    (List.length sel <= 11)%nat.
Proof.
  eexists. split; [vm_compute; reflexivity|].
  apply (optimize_xi_unconstrained_slots_distinct nanmean nanstd
           assignment_by_search no_solver "4-4-2"
           ["GK";"LB";"LCB";"RCB";"RB";"LM";"LCM";"RCM";"RM";"LS";"RS"]
           two_strikers).
  - reflexivity.
  - vm_compute. reflexivity.
Defined.

(** ** Squads *)

Lemma squad_total_value_sum (sq : Squad) :
  squad_total_value sq = Qsum (map (fun ks => slot_value (snd ks)) (slots sq)).
Proof.
  unfold squad_total_value, to_dataframe.
  destruct (slots sq) as [|s ss]; [reflexivity|].
  assert (Hlen : (List.length (s :: ss) =? 0)%nat = false) by reflexivity.
  remember (s :: ss) as l eqn:El. clear El.
  unfold has_column, column. cbn [columns index]. simpl lookup.
  cbn [negb orb]. rewrite Hlen.
  unfold fillna, to_numeric. rewrite !map_map. f_equal.
  apply map_ext. intros [k [p [pl|]]]; unfold slot_value, market_value;
    cbn [player snd]; [|reflexivity].
  now destruct (get pl "market_value_mil" NA).
Qed.

Lemma FORMATIONS_NoDup (f : string) (ps : list string) :
  lookup f FORMATIONS = Some ps -> NoDup ps.
Proof.
  unfold FORMATIONS. cbn [lookup].
  repeat (destruct (String.eqb f _);
          [intros [= <-];
           match goal with
           | |- NoDup ?l =>
               replace l with (nodup string_dec l) by (vm_compute; reflexivity);
               apply NoDup_nodup
           end|]).
  discriminate.
Qed.

Lemma lookup_NoDup_In {A} (k : string) (v : A) (l : list (string * A)) :
  NoDup (map fst l) -> In (k, v) l -> lookup k l = Some v.
Proof.
  induction l as [|[k' v'] l IH]; intros Hn Hin; [destruct Hin|].
  cbn [map fst] in Hn. inversion Hn as [|? ? Hni Hn']; subst.
  cbn [lookup]. destruct Hin as [[= -> ->]|Hin].
  - now rewrite String.eqb_refl.
  - destruct (String.eqb_spec k k') as [->|Hne]; [|now apply IH].
    exfalso. apply Hni. apply in_map_iff. now exists (k', v).
Qed.

Lemma set_key_skip {A} (p : string) (v x : A) (l1 l2 : list (string * A)) :
  ~ In p (map fst l1) ->
  set_key p v (l1 ++ (p, x) :: l2) = l1 ++ (p, v) :: l2.
Proof.
  induction l1 as [|[k a] l1 IH]; intros Hni; cbn [app set_key].
  - now rewrite String.eqb_refl.
  - destruct (String.eqb_spec p k) as [->|Hne].
    + exfalso. apply Hni. now left.
    + rewrite IH; [reflexivity|]. intros Hin. apply Hni. now right.
Qed.

Lemma fold_set_key {A} (g e : string -> A) (done todo : list string) :
  NoDup (done ++ todo) ->
  fold_left (fun ss p => set_key p (g p) ss) todo
    (map (fun p => (p, g p)) done ++ map (fun p => (p, e p)) todo)
  = map (fun p => (p, g p)) (done ++ todo).
Proof.
  revert done. induction todo as [|p todo IH]; intros done Hn.
  - cbn. now rewrite !app_nil_r.
  - cbn [fold_left map]. rewrite set_key_skip.
    + replace (map (fun p0 => (p0, g p0)) done ++ (p, g p) :: map (fun p0 => (p0, e p0)) todo)
        with (map (fun p0 => (p0, g p0)) (done ++ [p]) ++ map (fun p0 => (p0, e p0)) todo)
        by (rewrite map_app, <- app_assoc; reflexivity).
      rewrite IH by (now rewrite <- app_assoc).
      now rewrite <- app_assoc.
    + rewrite map_map. cbn [fst]. rewrite map_id.
      apply NoDup_remove_2 in Hn. intros Hin. apply Hn.
      apply in_or_app. now left.
Qed.

(** What [from_dict] builds for a known formation. *)
Lemma from_dict_known (d : SquadDict) (ps : list string) :
  lookup (match d_formation d with Some f => f | None => "4-3-3" end) FORMATIONS
    = Some ps ->
  from_dict d =
  Ok (mkSquad (match d_formation d with Some f => f | None => "4-3-3" end)
              (map (fun p => (p, mkSlot p (saved_player d p))) ps)).
Proof.
  intros Hf. unfold from_dict, new_squad. rewrite Hf. cbn [rbind formation].
  rewrite Hf. cbn [slots]. f_equal. f_equal.
  exact (fold_set_key (fun p => mkSlot p (saved_player d p))
           (fun p => mkSlot p None) [] ps (FORMATIONS_NoDup _ _ Hf)).
Qed.

(** X8. [Squad.total_value] is the sum, over the slots, of the numeric market
    value of the player in the slot, an empty slot or a missing value counting
    0; it is the total the comparator shows for the squad. *)
Theorem squad_total_value_is_sum (mean_of : list Q -> Q) (sq : Squad) :
  squad_total_value sq = Qsum (map (fun ks => slot_value (snd ks)) (slots sq)) /\
  (slots sq <> [] ->
   forall b, slots b <> [] ->
     exists r rows, compare_squads mean_of sq b = Ok (r :: rows) /\
                    metric r = "Valor total (M€)" /\
                    squad_a r = Some (squad_total_value sq)).
Proof.
  split; [apply squad_total_value_sum|].
  intros Ha b Hb. unfold compare_squads.
  rewrite (agg_to_dataframe mean_of sq Ha), (agg_to_dataframe mean_of b Hb).
  cbn [rbind combine map fst snd].
  eexists _, _. split; [reflexivity|]. split; [reflexivity|].
  cbn [squad_a]. f_equal. unfold squad_total_value, to_dataframe.
  destruct (slots sq) as [|s ss]; [congruence|]. reflexivity.
Qed.

(** X9. Saving and loading: for a squad whose slots are those of its
    formation, [from_dict (to_dict sq)] is the squad. *)
Theorem from_dict_to_dict (sq : Squad) :
  squad_ok sq -> from_dict (to_dict sq) = Ok sq.
Proof.
  intros (ps & Hf & Hk & Hpos).
  rewrite (from_dict_known (to_dict sq) ps) by exact Hf.
  destruct sq as [f ss]. cbn [to_dict d_formation formation slots] in *.
  f_equal. f_equal. rewrite <- Hk, map_map.
  rewrite <- (map_id ss) at 2. apply map_ext_in. intros [k [p pl]] Hin.
  specialize (Hpos _ Hin). cbn [fst snd pos] in *. subst p.
  unfold saved_player, to_dict. cbn [d_slots slots].
  rewrite (lookup_NoDup_In k pl); [reflexivity| |].
  - rewrite map_map.
    rewrite (map_ext _ fst) by reflexivity.
    rewrite Hk. eapply FORMATIONS_NoDup; eauto.
  - apply in_map_iff. exists (k, mkSlot k pl). auto.
Qed.

(** X10. [from_dict] raises [KeyError] for a formation that is not known;
    otherwise the squad it returns has the slots of the formation, in order,
    each with the player saved under its name, or empty when the dictionary
    has none; what the dictionary holds under other names is dropped. *)
Theorem from_dict_shape (d : SquadDict) :
  let f := match d_formation d with Some f => f | None => "4-3-3" end in
  match lookup f FORMATIONS with
  | Some ps =>
      exists sq, from_dict d = Ok sq /\ squad_ok sq /\ formation sq = f /\
                 slots sq = map (fun p => (p, mkSlot p (saved_player d p))) ps
  | None => from_dict d = Raise (KeyError f)
  end.
Proof.
  cbv zeta.
  destruct (lookup _ FORMATIONS) as [ps|] eqn:Hf.
  - eexists. split; [apply (from_dict_known d ps Hf)|].
    split; [|split; reflexivity].
    exists ps. cbn [formation slots]. split; [exact Hf|]. split.
    + rewrite map_map. cbn [fst]. apply map_id.
    + intros ks Hin. apply in_map_iff in Hin as (p & <- & _). reflexivity.
  - unfold from_dict, new_squad. now rewrite Hf.
Qed.

Lemma remove_keys (sq : Squad) (p : string) :
  map fst (slots (remove sq p)) = map fst (slots sq).
Proof.
  unfold remove. cbn [slots]. rewrite map_map. apply map_ext.
  intros [k s]. cbn [fst]. now destruct (String.eqb k p).
Qed.

Lemma remove_squad_ok (sq : Squad) (p : string) :
  squad_ok sq -> squad_ok (remove sq p).
Proof.
  intros (ps & Hf & Hk & Hpos). exists ps. split; [exact Hf|]. split.
  - now rewrite remove_keys.
  - intros ks Hin. unfold remove in Hin. cbn [slots] in Hin.
    apply in_map_iff in Hin as ([k s] & <- & Hin).
    specialize (Hpos _ Hin). cbn [fst snd] in *.
    now destruct (String.eqb k p).
Qed.

Lemma remove_absent (ss : list (string * Slot)) (p : string) :
  ~ In p (map fst ss) ->
  map (fun ks => if String.eqb (fst ks) p
                 then (fst ks, mkSlot (pos (snd ks)) None) else ks) ss = ss.
Proof.
  intros Hni. rewrite <- (map_id ss) at 2. apply map_ext_in.
  intros [k s] Hin. cbn [fst snd].
  destruct (String.eqb_spec k p) as [->|]; [|reflexivity].
  exfalso. apply Hni. apply in_map_iff. now exists (p, s).
Qed.

Lemma lookup_absent {A} (k : string) (l : list (string * A)) :
  ~ In k (map fst l) -> lookup k l = None.
Proof.
  induction l as [|[k' v] l IH]; intros Hni; [reflexivity|].
  cbn [lookup]. destruct (String.eqb_spec k k') as [->|].
  - exfalso. apply Hni. now left.
  - apply IH. intros Hin. apply Hni. now right.
Qed.

Lemma remove_total (ss : list (string * Slot)) (p : string) :
  NoDup (map fst ss) ->
  Qsum (map (fun ks => slot_value (snd ks))
          (map (fun ks => if String.eqb (fst ks) p
                          then (fst ks, mkSlot (pos (snd ks)) None) else ks) ss))
  == Qsum (map (fun ks => slot_value (snd ks)) ss)
     - match lookup p ss with Some s => slot_value s | None => 0 end.
Proof.
  induction ss as [|[k s] ss IH]; intros Hn.
  - cbn. ring.
  - cbn [map fst] in Hn. inversion Hn as [|? ? Hni Hn']; subst.
    cbn [map fst snd lookup Qsum fold_right].
    change (fold_right Qplus 0 ?l) with (Qsum l).
    destruct (String.eqb_spec k p) as [->|Hne].
    + rewrite String.eqb_refl, (remove_absent ss p Hni).
      cbn [snd]. unfold slot_value at 1. cbn [player]. ring.
    + destruct (String.eqb_spec p k) as [->|_]; [congruence|].
      rewrite (IH Hn'). cbn [snd]. ring.
Qed.

(** X11. [Squad.remove] keeps the slots of the squad and empties the one
    named, if there is one: every other slot is as before, and the total value
    goes down by the market value of the player removed. *)
Theorem remove_lowers_total_value (sq : Squad) (p : string) :
  squad_ok sq ->
  squad_ok (remove sq p) /\
  (forall k, k <> p -> lookup k (slots (remove sq p)) = lookup k (slots sq)) /\
  squad_total_value (remove sq p)
  == squad_total_value sq
     - match lookup p (slots sq) with Some s => slot_value s | None => 0 end.
Proof.
  intros Hok. split; [now apply remove_squad_ok|]. split.
  - intros k Hk. unfold remove. cbn [slots].
    induction (slots sq) as [|[k' s] ss IH]; [reflexivity|].
    cbn [map fst snd lookup].
    destruct (String.eqb_spec k' p) as [->|Hne]; cbn [lookup].
    + destruct (String.eqb_spec k p) as [->|_]; [congruence | exact IH].
    + destruct (String.eqb k k'); [reflexivity | exact IH].
  - rewrite !squad_total_value_sum. unfold remove. cbn [slots].
    apply remove_total. destruct Hok as (ps & Hf & Hk & _).
    rewrite Hk. eapply FORMATIONS_NoDup; eauto.
Qed.

Lemma Qsum_zeros {A} (l : list A) : Qsum (map (fun _ => 0) l) = 0.
Proof.
  unfold Qsum. induction l as [|a l IH]; cbn [map fold_right];
    [reflexivity | now rewrite IH].
Qed.

Lemma new_squad_ok (f : string) (ps : list string) :
  lookup f FORMATIONS = Some ps ->
  squad_ok (mkSquad f (map (fun p => (p, mkSlot p None)) ps)).
Proof.
  intros Hf. exists ps. cbn [formation slots]. split; [exact Hf|]. split.
  - rewrite map_map. cbn [fst]. apply map_id.
  - intros ks Hin. apply in_map_iff in Hin as (p & <- & _). reflexivity.
Qed.

(** X12. [Squad.set_formation] with a known formation leaves a squad with the
    slots of that formation, all empty, of total value 0.  With an unknown
    formation it raises [KeyError] after the name has been assigned: the squad
    is left with the new name over its old slots, which no formation has. *)
Theorem set_formation_result (sq : Squad) (f : string) :
  match lookup f FORMATIONS with
  | Some ps =>
      exists sq', set_formation sq f = (Ok tt, sq') /\
                  new_squad f = Ok sq' /\ squad_ok sq' /\
                  squad_total_value sq' = 0
  | None =>
      set_formation sq f = (Raise (KeyError f), mkSquad f (slots sq)) /\
      ~ squad_ok (snd (set_formation sq f))
  end.
Proof.
  unfold set_formation, new_squad.
  destruct (lookup f FORMATIONS) as [ps|] eqn:Hf.
  - eexists. split; [reflexivity|]. split; [reflexivity|].
    split; [now apply new_squad_ok|].
    rewrite squad_total_value_sum. cbn [slots]. rewrite map_map.
    cbn [snd]. unfold slot_value. cbn [player]. apply Qsum_zeros.
  - split; [reflexivity|]. cbn [snd]. intros (ps & Hf' & _).
    cbn [formation] in Hf'. congruence.
Qed.

Section AddPlayerProperties.

Variable fetch_player : string -> result (option Player).

Lemma add_total (ss : list (string * Slot)) (slot : string) (d : dict) :
  NoDup (map fst ss) ->
  In slot (map fst ss) ->
  Qsum (map (fun ks => slot_value (snd ks))
          (map (fun ks => if String.eqb (fst ks) slot
                          then (fst ks, mkSlot (pos (snd ks)) (Some d)) else ks) ss))
  == Qsum (map (fun ks => slot_value (snd ks)) ss)
     - match lookup slot ss with Some s => slot_value s | None => 0 end
     + market_value d.
Proof.
  induction ss as [|[k s] ss IH]; intros Hn Hin; [destruct Hin|].
  cbn [map fst] in Hn, Hin. inversion Hn as [|? ? Hni Hn']; subst.
  cbn [map fst snd lookup Qsum fold_right].
  change (fold_right Qplus 0 ?l) with (Qsum l).
  destruct (String.eqb_spec k slot) as [->|Hne].
  - rewrite String.eqb_refl.
    assert (Hsame : map (fun ks => if String.eqb (fst ks) slot
                           then (fst ks, mkSlot (pos (snd ks)) (Some d)) else ks) ss
                    = ss).
    { rewrite <- (map_id ss) at 2. apply map_ext_in. intros [k' s'] Hin'.
      cbn [fst snd]. destruct (String.eqb_spec k' slot) as [->|]; [|reflexivity].
      exfalso. apply Hni. apply in_map_iff. now exists (slot, s'). }
    rewrite Hsame. cbn [snd]. unfold slot_value at 1. cbn [player]. ring.
  - destruct (String.eqb_spec slot k) as [->|_]; [congruence|].
    destruct Hin as [->|Hin]; [congruence|].
    rewrite (IH Hn' Hin). cbn [snd]. ring.
Qed.

(** X13. [Squad.add] of a player the scraper finds, into a slot the squad
    has: the squad keeps its slots, the slot holds the player's data, the
    total value changes by the player's market value less that of the player
    replaced, and removing the slot afterwards gives what removing it before
    gives. *)
Theorem add_then_remove (sq : Squad) (slot name : string) (p : Player) :
  squad_ok sq ->
  fetch_player name = Ok (Some p) ->
  In slot (map fst (slots sq)) ->
  exists sq',
    add fetch_player sq slot name = (Ok tt, sq') /\
    squad_ok sq' /\
    lookup slot (slots sq') = Some (mkSlot slot (Some (player_dict p))) /\
    squad_total_value sq'
    == squad_total_value sq
       - match lookup slot (slots sq) with Some s => slot_value s | None => 0 end
       + market_value (player_dict p) /\
    remove sq' slot = remove sq slot.
Proof.
  intros Hok Hp Hin. pose proof Hok as (ps & Hf & Hk & Hpos).
  assert (Hn : NoDup (map fst (slots sq)))
    by (rewrite Hk; eapply FORMATIONS_NoDup; eauto).
  unfold add. rewrite Hp.
  destruct (lookup slot (slots sq)) as [s0|] eqn:Hl.
  2:{ exfalso. apply in_map_iff in Hin as ([k s] & <- & Hin).
      cbn [fst] in Hl.
      rewrite (lookup_NoDup_In k s _ Hn Hin) in Hl. discriminate. }
  eexists. split; [reflexivity|]. split; [|split; [|split]].
  - exists ps. cbn [formation slots]. split; [exact Hf|]. split.
    + rewrite <- Hk, map_map. apply map_ext. intros [k s]. cbn [fst].
      now destruct (String.eqb k slot).
    + intros ks Hin'. apply in_map_iff in Hin' as ([k s] & <- & Hin').
      specialize (Hpos _ Hin'). cbn [fst snd] in *.
      now destruct (String.eqb k slot).
  - cbn [slots]. apply lookup_NoDup_In.
    + rewrite map_map. rewrite (map_ext _ fst); [exact Hn|].
      intros [k s]. cbn [fst]. now destruct (String.eqb k slot).
    + apply in_map_iff in Hin as ([k s] & <- & Hin).
      apply in_map_iff. exists (k, s). split; [|exact Hin].
      pose proof (Hpos _ Hin) as Hks. cbn [fst snd] in *.
      now rewrite String.eqb_refl, Hks.
  - rewrite !squad_total_value_sum. cbn [slots].
    rewrite (add_total _ slot (player_dict p) Hn Hin), Hl. reflexivity.
  - unfold remove. cbn [formation slots]. f_equal. rewrite map_map.
    apply map_ext. intros [k s]. cbn [fst snd].
    destruct (String.eqb k slot) eqn:E; cbn [fst snd pos]; now rewrite E.
Qed.

End AddPlayerProperties.

(** ** Squads on sample data *)

Ltac squad_ok_433 :=
  exists SLOTS_433; split; [reflexivity|]; split; [reflexivity|];
  let ks := fresh "ks" in
  let Hin := fresh "Hin" in
  intros ks Hin; cbn in Hin;
  repeat (destruct Hin as [<-|Hin]; [reflexivity|]); destruct Hin.

Lemma from_dict_to_dict_witness :
  from_dict (to_dict squad_with_striker) = Ok squad_with_striker.
Proof. apply (from_dict_to_dict squad_with_striker). squad_ok_433. Defined.

Lemma remove_lowers_total_value_witness :
  squad_ok (remove squad_with_striker "ST") /\
  (forall k, k <> "ST" ->
     lookup k (slots (remove squad_with_striker "ST"))
     = lookup k (slots squad_with_striker)) /\
  squad_total_value (remove squad_with_striker "ST")
  == squad_total_value squad_with_striker
     - match lookup "ST" (slots squad_with_striker) with
       | Some s => slot_value s
       | None => 0
       end.
Proof. apply (remove_lowers_total_value squad_with_striker "ST"). squad_ok_433. Defined.

Lemma add_then_remove_witness :
  exists sq',
    add knows_striker empty_433 "ST" "A" = (Ok tt, sq') /\
    squad_ok sq' /\
    lookup "ST" (slots sq') = Some (mkSlot "ST" (Some (player_dict striker))) /\
    squad_total_value sq'
    == squad_total_value empty_433
       - match lookup "ST" (slots empty_433) with
         | Some s => slot_value s
         | None => 0
         end
       + market_value (player_dict striker) /\
    remove sq' "ST" = remove empty_433 "ST".
Proof.
  apply (add_then_remove knows_striker empty_433 "ST" "A" striker).
  - squad_ok_433.
  - reflexivity.
  - cbn. auto 12.
Defined.

Example squad_with_striker_total : squad_total_value squad_with_striker == 50.
Proof. reflexivity. Qed.

(** ** Market values *)

Lemma assign_assign (c : string) (s s' : Series) (cols : list (string * Series)) :
  assign c s (assign c s' cols) = assign c s cols.
Proof.
  induction cols as [|[k v] cols IH]; cbn [assign].
  - now rewrite String.eqb_refl.
  - destruct (String.eqb c k) eqn:E; cbn [assign]; rewrite ?String.eqb_refl, ?E;
      [reflexivity | now rewrite IH].
Qed.

Lemma setitem_setitem (d : DataFrame) (c : string) (s s' : Series) :
  setitem (setitem d c s') c s = setitem d c s.
Proof. unfold setitem. cbn [index columns]. now rewrite assign_assign. Qed.

Lemma map_combine_map {A B C} (g : A * B -> C) (f : A -> B) (l : list A) :
  map g (combine l (map f l)) = map (fun a => g (a, f a)) l.
Proof. induction l as [|a l IH]; cbn; [reflexivity | now rewrite IH]. Qed.

Lemma map_const_repeat {A B} (b : B) (l : list A) :
  map (fun _ => b) l = repeat b (List.length l).
Proof. induction l as [|a l IH]; cbn; [reflexivity | now rewrite IH]. Qed.

(** Running "copy, then statements on the copy" on a store. *)
Lemma copy_on_run {A} (t : T A) (h : heap) (df : ref) (d : DataFrame) :
  nth_error h df = Some d ->
  (out <~ copy df ;; _ <~ on out t ;; ret out) h =
  (match fst (t d) with
   | Ok _ => Ok (List.length h)
   | Raise e => Raise e
   end, h ++ [snd (t d)]).
Proof.
  intros Hd. unfold bind, copy, on, ret.
  rewrite Hd, nth_error_app_length.
  destruct (t d) as [[u|e] d']; cbn [fst snd]; now rewrite replace_app_length.
Qed.

Section MarketValueProperties.

Variable get_market_value : cell -> result (option Q).

Lemma value_for_step (done : list cell) (n nm : cell) :
  match nm with Num _ => False | _ => True end ->
  (if cell_eqb nm n then looked_up get_market_value n
   else value_for get_market_value done nm)
  = value_for get_market_value (done ++ [n]) nm.
Proof.
  intros Ht. unfold value_for. rewrite existsb_app. cbn [existsb].
  rewrite orb_false_r.
  destruct nm as [q|s|]; [destruct Ht| |].
  - destruct n as [q|t|]; cbn [cell_eqb]; rewrite ?orb_false_r; try reflexivity.
    destruct (String.eqb_spec s t) as [->|_];
      [now rewrite orb_true_r | now rewrite orb_false_r].
  - cbn [cell_eqb]. now rewrite orb_false_r.
Qed.

Lemma mark_loop (pool : DataFrame) (namecol : Series) (todo done : list cell) :
  getitem pool "name" = Ok namecol ->
  text_names namecol ->
  for_each todo (fun n => mark n (looked_up get_market_value n))
    (setitem pool "market_value_mil"
       (map (value_for get_market_value done) namecol))
  = (Ok tt,
     setitem pool "market_value_mil"
       (map (value_for get_market_value (done ++ todo)) namecol)).
Proof.
  intros Hname Ht. revert done.
  induction todo as [|n todo IH]; intros done.
  - cbn. now rewrite app_nil_r.
  - cbn [for_each]. unfold bind at 1. unfold mark at 1. unfold bind, col, set.
    rewrite getitem_setitem_ne, Hname by reflexivity.
    rewrite getitem_setitem_eq, setitem_setitem, map_combine_map.
    cbn [fst snd].
    rewrite (map_ext_in _ (value_for get_market_value (done ++ [n]))).
    + rewrite IH, <- app_assoc. reflexivity.
    + intros nm Hin. apply value_for_step.
      unfold text_names in Ht. rewrite Forall_forall in Ht. now apply Ht.
Qed.

(** X14. On a pool whose names are texts, [add_market_values] returns a new
    table that is the pool with the column [market_value_mil] set: a row
    whose name is among the first [max_lookup] distinct names holds what the
    lookup of its name gave ([None] when it gave none or raised), every other
    row holds [None]; rows of one name hold one value. *)
Theorem add_market_values_result (h : heap) (df : ref) (pool : DataFrame)
  (max_lookup : nat) (namecol : Series) :
  nth_error h df = Some pool ->
  getitem pool "name" = Ok namecol ->
  List.length namecol = index pool ->
  text_names namecol ->
  add_market_values get_market_value df max_lookup h =
  (Ok (List.length h),
   h ++ [setitem pool "market_value_mil"
           (map (value_for get_market_value
                   (firstn max_lookup (unique (dropna namecol))))
                namecol)]).
Proof.
  intros Hd Hname Hlen Ht. unfold add_market_values.
  rewrite (copy_on_run _ h df pool Hd).
  unfold market_value_columns. unfold bind at 1 3. unfold broadcast.
  unfold bind at 1 2. unfold col.
  rewrite getitem_setitem_ne, Hname by reflexivity.
  rewrite <- Hlen, <- (map_const_repeat NA namecol).
  change (map (fun _ => NA) namecol)
    with (map (value_for get_market_value []) namecol).
  rewrite (mark_loop pool namecol _ [] Hname Ht). reflexivity.
Qed.

(** X15. [add_market_values] changes no table of the store, and raises
    [KeyError] when the pool has no [name] column. *)
Theorem add_market_values_leaves_the_pool_unchanged (h : heap) (df : ref)
  (max_lookup : nat) :
  firstn (List.length h)
         (snd (add_market_values get_market_value df max_lookup h)) = h /\
  (forall pool, nth_error h df = Some pool -> has_column pool "name" = false ->
     fst (add_market_values get_market_value df max_lookup h)
     = Raise (KeyError "name")).
Proof.
  unfold add_market_values. split.
  - destruct (nth_error h df) as [d|] eqn:Hd.
    + rewrite (copy_on_run _ h df d Hd). apply firstn_app_length.
    + unfold bind, copy. rewrite Hd. cbn [snd]. now rewrite firstn_all.
  - intros pool Hd Hn. rewrite (copy_on_run _ h df pool Hd). cbn [fst].
    unfold market_value_columns, bind, broadcast, col.
    rewrite getitem_setitem_ne by reflexivity.
    unfold has_column in Hn. unfold getitem.
    destruct (lookup "name" (columns pool)); [discriminate | reflexivity].
Qed.

End MarketValueProperties.

Lemma add_market_values_result_witness :
  add_market_values price_list 0%nat 60%nat [three_rows] =
  (Ok 1%nat,
   [three_rows] ++
   [setitem three_rows "market_value_mil"
      (map (value_for price_list
              (firstn 60 (unique (dropna [Str "A"; Str "B"; Str "A"]))))
           [Str "A"; Str "B"; Str "A"])]).
Proof.
  apply (add_market_values_result price_list [three_rows] 0%nat three_rows
           60%nat [Str "A"; Str "B"; Str "A"]).
  - reflexivity.
  - reflexivity.
  - reflexivity.
  - repeat constructor.
Defined.

Example add_market_values_three_rows :
  exists d, add_market_values price_list 0%nat 1%nat [three_rows]
            = (Ok 1%nat, [three_rows; d]) /\
            getitem d "market_value_mil" = Ok [Num 50; NA; Num 50].
Proof. eexists. split; [vm_compute; reflexivity | reflexivity]. Qed.

(** ** The names that are looked up *)

Lemma seen_text (t : string) (seen : list cell) :
  existsb (cell_eqb (Str t)) seen = true <-> In (Str t) seen.
Proof.
  rewrite existsb_exists. split.
  - intros (x & Hin & He). destruct x as [q|u|]; cbn in He; try discriminate.
    apply String.eqb_eq in He. now subst.
  - intros Hin. exists (Str t). split; [exact Hin|]. cbn. apply String.eqb_refl.
Qed.

Lemma unique_fold (s seen : list cell) :
  Forall (fun c => exists t, c = Str t) s ->
  NoDup seen ->
  let r := fold_left (fun seen c => if existsb (cell_eqb c) seen then seen
                                    else seen ++ [c]) s seen in
  NoDup r /\ forall c, In c r <-> In c seen \/ In c s.
Proof.
  intros Hs. revert seen. induction Hs as [|c s [t ->] _ IH]; intros seen Hn.
  - cbn. split; [exact Hn|]. intros c. tauto.
  - cbn [fold_left]. destruct (existsb (cell_eqb (Str t)) seen) eqn:E.
    + destruct (IH seen Hn) as [Hn' Hin]. split; [exact Hn'|].
      intros c. rewrite Hin. cbn [In]. apply seen_text in E.
      split; [tauto|]. intros [H|[<-|H]]; auto.
    + assert (Hni : ~ In (Str t) seen)
        by (intros Hin; apply seen_text in Hin; congruence).
      destruct (IH (seen ++ [Str t])) as [Hn' Hin].
      { apply NoDup_app; auto.
        - repeat constructor. intros [].
        - intros x Hx [<-|[]]. now apply Hni. }
      split; [exact Hn'|]. intros c. rewrite Hin, in_app_iff. cbn [In]. tauto.
Qed.

Lemma dropna_text (s : Series) :
  text_names s -> Forall (fun c => exists t, c = Str t) (dropna s).
Proof.
  unfold text_names, dropna. intros H. apply Forall_forall. intros c Hc.
  apply filter_In in Hc as [Hin Hc]. rewrite Forall_forall in H.
  specialize (H c Hin). destruct c as [q|t|]; [destruct H | eauto | discriminate].
Qed.

(** X16. The names [add_market_values] looks up are at most [max_lookup],
    each a name of the pool that is not missing, none of them twice; when the
    pool has no more than [max_lookup] distinct names, every name of the pool
    is looked up. *)
Theorem add_market_values_names (namecol : Series) (max_lookup : nat) :
  text_names namecol ->
  let names := firstn max_lookup (unique (dropna namecol)) in
  (List.length names <= max_lookup)%nat /\
  NoDup names /\
  (forall n, In n names -> In n namecol /\ n <> NA) /\
  ((List.length (unique (dropna namecol)) <= max_lookup)%nat ->
   forall n, In n namecol -> n <> NA -> In n names).
Proof.
  intros Ht. cbv zeta.
  destruct (unique_fold (dropna namecol) [] (dropna_text _ Ht) (NoDup_nil _))
    as [Hn Hin].
  fold (unique (dropna namecol)) in Hn, Hin.
  assert (Hmem : forall n, In n (unique (dropna namecol)) <->
                           In n namecol /\ n <> NA).
  { intros n. rewrite Hin. cbn [In]. unfold dropna. rewrite filter_In.
    split.
    - intros [[]|[H1 H2]]. split; [exact H1|]. now intros ->.
    - intros [H1 H2]. right. split; [exact H1|]. now destruct n. }
  split; [apply firstn_le_length|]. split; [|split].
  - rewrite <- (firstn_skipn max_lookup (unique (dropna namecol))) in Hn.
    now apply NoDup_app_remove_r in Hn.
  - intros n Hf. apply Hmem.
    rewrite <- (firstn_skipn max_lookup (unique (dropna namecol))).
    apply in_or_app. now left.
  - intros Hlen n H1 H2. rewrite firstn_all2 by exact Hlen.
    apply Hmem. auto.
Qed.

Lemma add_market_values_names_witness :
  let names := firstn 1 (unique (dropna [Str "A"; NA; Str "B"; Str "A"])) in
  (List.length names <= 1)%nat /\
  NoDup names /\
  (forall n, In n names -> In n [Str "A"; NA; Str "B"; Str "A"] /\ n <> NA) /\
  ((List.length (unique (dropna [Str "A"; NA; Str "B"; Str "A"])) <= 1)%nat ->
   forall n, In n [Str "A"; NA; Str "B"; Str "A"] -> n <> NA -> In n names).
Proof.
  apply (add_market_values_names [Str "A"; NA; Str "B"; Str "A"] 1).
  repeat constructor.
Defined.

(** ** A complete line-up from the integer program *)

Lemma selection_exact (slots : list string) (pool : DataFrame) (x : list var)
  (sol : LpSolution) :
  (forall v, In v x ->
     (fst v < index pool)%nat /\ (snd v < List.length slots)%nat) ->
  selection slots pool x sol =
  Ok (map (fun v => (nth (snd v) slots ""%string, row_dict pool (fst v)))
          (filter (selected sol) x)).
Proof.
  induction x as [|[i j] x IH]; intros H; [reflexivity|].
  cbn [selection filter]. unfold selected at 1.
  rewrite IH by (intros v Hv; apply H; now right).
  destruct (is_one (value sol (i, j))); [|reflexivity].
  destruct (H (i, j)) as [Hi Hj]; [now left|]. cbn [fst snd] in *.
  unfold iloc, slot_at. apply Nat.ltb_lt in Hi. rewrite Hi. cbn [rbind].
  destruct (nth_error slots j) as [slot|] eqn:E.
  - cbn [rbind map fst snd]. now rewrite (nth_error_nth _ _ _ E).
  - apply nth_error_None in E. exfalso. lia.
Qed.

Lemma selected_iff (sol : LpSolution) (v : var) :
  selected sol v = true <-> value_of sol v == 1.
Proof.
  unfold selected, is_one, value_of. destruct (value sol v) as [q|].
  - apply Qeq_bool_iff.
  - split; [discriminate|]. intros H. discriminate H.
Qed.

Lemma selected_count_eq (sol : LpSolution) (l : list var) :
  binary sol l ->
  Qofnat (List.length (filter (selected sol) l)) == Qsum (map (value_of sol) l).
Proof.
  induction l as [|v l IH]; intros Hb; [reflexivity|].
  assert (IH' : Qofnat (List.length (filter (selected sol) l))
                == Qsum (map (value_of sol) l))
    by (apply IH; intros u Hu; apply Hb; now right).
  cbn [filter map Qsum fold_right].
  change (fold_right Qplus 0 (map (value_of sol) l))
    with (Qsum (map (value_of sol) l)).
  destruct (selected sol v) eqn:Hs.
  - apply selected_iff in Hs. cbn [List.length].
    rewrite Qofnat_succ, IH', Hs. ring.
  - destruct (Hb v) as [H0|H1]; [now left | |].
    + rewrite IH', H0. ring.
    + apply selected_iff in H1. congruence.
Qed.

Lemma count_occ_cols (sol : LpSolution) (x : list var) (j : nat) :
  count_occ Nat.eq_dec (map snd (filter (selected sol) x)) j =
  List.length (filter (selected sol) (filter (fun v => (snd v =? j)%nat) x)).
Proof.
  induction x as [|[a b] x IH]; [reflexivity|].
  cbn [filter snd]. destruct (Nat.eqb_spec b j) as [->|Hne].
  - cbn [filter]. destruct (selected sol (a, j)); [|exact IH].
    cbn [map snd List.length]. rewrite count_occ_cons_eq by reflexivity.
    now rewrite IH.
  - destruct (selected sol (a, b)); [|exact IH].
    cbn [map snd]. rewrite count_occ_cons_neq by exact Hne. exact IH.
Qed.

(** Binary values that satisfy the slot constraints select one variable for
    every slot. *)
Lemma selected_cols_once (slots : list string) (sol : LpSolution) (x : list var)
  (j : nat) :
  binary sol x ->
  Forall (holds sol) (slot_constraints slots x) ->
  (j < List.length slots)%nat ->
  count_occ Nat.eq_dec (map snd (filter (selected sol) x)) j = 1%nat.
Proof.
  intros Hb Hc Hj. rewrite count_occ_cols. rewrite Forall_forall in Hc.
  assert (Hh : holds sol (mkConstraint (lp_sum (fun v => (snd v =? j)%nat) x) EQ 1)).
  { apply Hc. unfold slot_constraints. apply in_map_iff. exists j.
    split; [reflexivity|]. apply in_seq. lia. }
  unfold holds in Hh. cbn [rel terms rhs] in Hh. rewrite lhs_lp_sum in Hh.
  rewrite <- selected_count_eq in Hh
    by (intros v Hv; apply Hb; now apply filter_In in Hv as [Hv _]).
  unfold Qofnat in Hh. change 1 with (inject_Z 1) in Hh.
  rewrite inject_Z_injective in Hh. apply Nat2Z.inj. exact Hh.
Qed.

Section FullLineup.

Variable mean_of : list Q -> Q.
Variable std_of : list Q -> Q.
Variable linear_sum_assignment : matrix -> list nat * list nat.
Variable solve : LpProblem -> option LpSolution.

(** X17. When the integer-programming branch runs to its end and the solver
    leaves binary values that satisfy the constraints of one player per slot,
    the assignment returned is a complete line-up: it has as many entries as
    the formation has slots and names every slot, each once. *)
Theorem optimize_xi_full_lineup (formation : string) (slots : list string)
  (pool : DataFrame) (b : Q) (prob : LpProblem) (sol : LpSolution) :
  lookup formation FORMATIONS = Some slots ->
  lp_problem slots pool b = Ok prob ->
  solve prob = Some sol ->
  binary sol (variables prob) ->
  Forall (holds sol) (slot_constraints slots (variables prob)) ->
  exists sel,
    optimize_xi mean_of std_of linear_sum_assignment solve formation pool (Some b) = Ok sel /\
    List.length sel = List.length slots /\
    NoDup (map fst sel) /\
    forall slot, In slot slots -> In slot (map fst sel).
Proof.
  intros Hf Hp Hs Hb Hc.
  destruct (lp_problem_inv slots pool b prob Hp) as (bc & Hx & _ & _).
  pose proof (lp_variables_sound pool slots _ _ Hx) as Hv.
  assert (Hr : forall v, In v (variables prob) ->
                 (fst v < index pool)%nat /\ (snd v < List.length slots)%nat).
  { intros v Hin. destruct (Hv v Hin) as [Hi (slot & p & Hslot & _)].
    apply in_seq in Hi. split; [lia|]. apply nth_error_Some. congruence. }
  pose proof (selection_exact slots pool _ sol Hr) as Hsel.
  eexists. split.
  { unfold optimize_xi, ilp. rewrite Hf, Hp. cbn [rbind]. now rewrite Hs, Hsel. }
  set (S := filter (selected sol) (variables prob)).
  set (js := map snd S).
  assert (Hone : forall j, (j < List.length slots)%nat ->
                   count_occ Nat.eq_dec js j = 1%nat)
    by (intros j Hj; now apply (selected_cols_once slots)).
  assert (Hlt : forall j, In j js -> (j < List.length slots)%nat).
  { intros j Hj. apply in_map_iff in Hj as (v & <- & Hin).
    apply filter_In in Hin as [Hin _]. now apply Hr. }
  assert (Hnd : NoDup js).
  { apply (NoDup_count_occ Nat.eq_dec). intros j.
    destruct (Nat.lt_ge_cases j (List.length slots)) as [Hj|Hj].
    - rewrite Hone by exact Hj. lia.
    - rewrite (proj1 (count_occ_not_In Nat.eq_dec js j)); [lia|].
      intros Hin. apply Hlt in Hin. lia. }
  assert (Hall : forall j, (j < List.length slots)%nat -> In j js).
  { intros j Hj. apply (count_occ_In Nat.eq_dec). rewrite Hone by exact Hj. lia. }
  assert (Hlen : List.length js = List.length slots).
  { apply Nat.le_antisymm.
    - rewrite <- (length_seq (List.length slots) 0%nat).
      apply NoDup_incl_length; [exact Hnd|].
      intros j Hj. apply in_seq. specialize (Hlt j Hj). lia.
    - rewrite <- (length_seq (List.length slots) 0%nat) at 1.
      apply NoDup_incl_length; [apply seq_NoDup|].
      intros j Hj. apply in_seq in Hj. apply Hall. lia. }
  assert (Hin : forall slot, In slot slots ->
                  In slot (map (fun v : var => nth (snd v) slots ""%string) S)).
  { intros slot Hslot.
    destruct (In_nth _ _ ""%string Hslot) as (j & Hj & <-).
    specialize (Hall j Hj). unfold js in Hall.
    apply in_map_iff in Hall as (v & <- & Hv').
    apply in_map_iff. exists v. split; [reflexivity | exact Hv']. }
  unfold js in Hlen. rewrite length_map in Hlen.
  rewrite map_map, length_map. cbn [fst].
  split; [exact Hlen|]. split; [|exact Hin].
  apply (NoDup_incl_NoDup (l := slots)).
  - eapply FORMATIONS_NoDup; eauto.
  - rewrite length_map. fold S. lia.
  - exact Hin.
Qed.

End FullLineup.

Lemma optimize_xi_full_lineup_witness :
  exists sel,
    optimize_xi nanmean nanstd assignment_by_search diagonal "4-3-3" eleven
      (Some 0) = Ok sel /\
    List.length sel = List.length SLOTS_433 /\
    NoDup (map fst sel) /\
    forall slot, In slot SLOTS_433 -> In slot (map fst sel).
Proof.
  eapply (optimize_xi_full_lineup nanmean nanstd assignment_by_search diagonal
            "4-3-3" SLOTS_433 eleven 0).
  - reflexivity.
  - vm_compute. reflexivity.
  - reflexivity.
  - intros v _. unfold value_of. cbn [value].
    destruct (fst v =? snd v)%nat; [right | left]; reflexivity.
  - vm_compute. repeat constructor.
Defined.

(** ** The reference assignment solver names no row twice *)

Lemma matchings_rows (rows cols : list nat) (c : list (nat * nat)) :
  NoDup rows -> In c (matchings rows cols) ->
  NoDup (map fst c) /\ incl (map fst c) rows.
Proof.
  revert cols c. induction rows as [|i rows IH]; intros cols c Hn Hin;
    simpl in Hin.
  - destruct Hin as [<-|[]]. split; [constructor | intros ? []].
  - inversion Hn as [|? ? Hni Hn']; subst.
    apply in_app_or in Hin as [Hin|Hin].
    + apply in_flat_map in Hin as (j & _ & Hin).
      apply in_map_iff in Hin as (c' & <- & Hc').
      destruct (IH _ _ Hn' Hc') as [Hnd Hincl]. split.
      * cbn. constructor; [intros H; apply Hni, Hincl, H | exact Hnd].
      * cbn. intros k [<-|Hk]; [now left | right; now apply Hincl].
    + destruct (IH _ _ Hn' Hin) as [Hnd Hincl]. split; [exact Hnd|].
      intros k Hk. right. now apply Hincl.
Qed.

Lemma least_In (cost : matrix) (best : list (nat * nat))
  (cands : list (list (nat * nat))) :
  least cost best cands = best \/ In (least cost best cands) cands.
Proof.
  revert best. induction cands as [|c cands IH]; intros best; simpl;
    [now left|].
  destruct (Qlt_bool _ _).
  - destruct (IH c) as [->|H]; [right; now left | right; now right].
  - destruct (IH best) as [->|H]; [now left | right; now right].
Qed.

Lemma assignment_by_search_rows_NoDup (cost : matrix) :
  NoDup (fst (assignment_by_search cost)).
Proof.
  unfold assignment_by_search. cbv zeta.
  set (cands := filter _ _).
  assert (H : forall c, In c cands -> NoDup (map fst c)).
  { intros c Hc. apply filter_In in Hc as [Hc _].
    eapply matchings_rows; [apply seq_NoDup | exact Hc]. }
  destruct cands as [|c l]; [constructor|]. cbn [fst].
  destruct (least_In cost c l) as [->|Hl]; apply H; [now left | now right].
Qed.

(** ** What every assignment satisfies, and when its rows are distinct *)

Section Assignment.

Variable mean_of : list Q -> Q.
Variable std_of : list Q -> Q.
Variable linear_sum_assignment : matrix -> list nat * list nat.
Variable solve : LpProblem -> option LpSolution.

(** X18. With a budget or without, and whatever the two solvers return, every
    pair of the assignment [optimize_xi] returns is a row of the pool in a
    slot the position of the row is eligible for. *)
Theorem optimize_xi_pairs_eligible (formation : string) (slots : list string)
  (pool : DataFrame) (budget_mil : option Q) (sel : list (string * dict)) :
  lookup formation FORMATIONS = Some slots ->
  optimize_xi mean_of std_of linear_sum_assignment solve formation pool budget_mil
    = Ok sel ->
  forall slot player, In (slot, player) sel ->
    (exists i, player = row_dict pool i) /\
    eligible slot (str (get player "pos" NA)) = true.
Proof.
  intros Hf H. unfold optimize_xi in H. rewrite Hf in H.
  destruct budget_mil as [b|].
  - destruct (ilp solve slots pool b) as [sel'|e] eqn:Hi.
    + injection H as <-. eapply ilp_eligible; eauto.
    + eapply hungarian_eligible; eauto.
  - eapply hungarian_eligible; eauto.
Qed.

(** X19. The assignment [optimize_xi] returns holds no row of the pool twice
    when the solvers keep their word: the assignment solver names no row
    twice, and the values the integer-program solver leaves respect the lower
    bound of the variables and the constraint of one slot per player. *)
Theorem optimize_xi_rows_distinct (formation : string) (slots : list string)
  (pool : DataFrame) (budget_mil : option Q) (sel : list (string * dict)) :
  lookup formation FORMATIONS = Some slots ->
  optimize_xi mean_of std_of linear_sum_assignment solve formation pool budget_mil
    = Ok sel ->
  (forall cost,
     fill_cost mean_of std_of pool slots 0
       (full (index pool) (List.length slots) SENTINEL) = Ok cost ->
     NoDup (fst (linear_sum_assignment cost))) ->
  (forall b prob sol,
     budget_mil = Some b ->
     lp_problem slots pool b = Ok prob -> solve prob = Some sol ->
     nonneg sol (variables prob) /\
     Forall (holds sol) (player_constraints pool (variables prob))) ->
  exists rows, NoDup rows /\ map snd sel = map (row_dict pool) rows.
Proof.
  intros Hf H Hlsa Hilp. unfold optimize_xi in H. rewrite Hf in H.
  destruct budget_mil as [b|].
  - destruct (ilp solve slots pool b) as [sel'|e] eqn:Hi.
    + injection H as <-. eapply (ilp_sound solve); eauto.
    + eapply (hungarian_sound mean_of std_of linear_sum_assignment); eauto.
  - eapply (hungarian_sound mean_of std_of linear_sum_assignment); eauto.
Qed.

End Assignment.

Lemma optimize_xi_pairs_eligible_witness :
  exists sel,
    optimize_xi nanmean nanstd assignment_by_search infeasible_ones "4-3-3"
      one_midfielder (Some 100) = Ok sel /\
    map fst sel = ["LCM"; "CM"; "RCM"] /\
    forall slot player, In (slot, player) sel ->
      (exists i, player = row_dict one_midfielder i) /\
      eligible slot (str (get player "pos" NA)) = true.
Proof.
  eexists. split; [vm_compute; reflexivity|]. split; [reflexivity|].
  apply (optimize_xi_pairs_eligible nanmean nanstd assignment_by_search
           infeasible_ones "4-3-3" SLOTS_433 one_midfielder (Some 100)).
  - reflexivity.
  - vm_compute. reflexivity.
Defined.

Lemma optimize_xi_rows_distinct_witness :
  exists sel rows,
    optimize_xi nanmean nanstd assignment_by_search diagonal "4-3-3" eleven
      (Some 0) = Ok sel /\
    List.length sel = 11%nat /\
    NoDup rows /\ map snd sel = map (row_dict eleven) rows.
Proof.
  eexists.
  assert (H : optimize_xi nanmean nanstd assignment_by_search diagonal "4-3-3"
                eleven (Some 0) = Ok _) by (vm_compute; reflexivity).
  destruct (optimize_xi_rows_distinct nanmean nanstd assignment_by_search
              diagonal "4-3-3" SLOTS_433 eleven (Some 0) _ eq_refl H)
    as (rows & Hn & Hr).
  - intros cost _. apply assignment_by_search_rows_NoDup.
  - intros b prob sol Hb Hp Hs. injection Hb as <-.
    vm_compute in Hp. injection Hp as <-. injection Hs as <-.
    split.
    + intros v _. unfold value_of. cbn [value].
      destruct (fst v =? snd v)%nat; discriminate.
    + repeat (constructor; [vm_compute; discriminate|]). constructor.
  - exists rows. split; [exact H|]. split; [reflexivity|]. split; assumption.
Defined.
